(** * A shallow embedding of the element browser-testing DSL

    Three parts of the repository are modelled, each in a module of
    its own:

    - [Settings]: [normalizeSettings] of the runtime settings
      (default filling and the seconds/milliseconds heuristic);
    - [ElementHandle]: the wrapper of a puppeteer element handle, with
      the [wrapDescriptiveError] decorator and [domError];
    - [Parser]: the documentation generator's walk over a TypeDoc
      reflection tree.

    JavaScript numbers are IEEE 754 binary64 values, modelled by the
    primitive floats of the kernel; strings are [string]; an optional
    property of an object is an [option]. *)

From Stdlib Require Import Floats Ascii String.
From stdpp Require Import gmap strings list.

Local Open Scope string_scope.

(* ===================================================================== *)
(** ** JavaScript strings *)
(* ===================================================================== *)

Module JsString.

(** [s.includes(needle)]: some suffix of [s] starts with [needle]. *)
Fixpoint includes (needle s : string) : bool :=
  if String.prefix needle s then true
  else match s with
       | EmptyString => false
       | String _ rest => includes needle rest
       end.

(** What "[s] contains [needle]" means: [needle] occurs in [s] between
    some text before it and some text after it. *)
Definition Contains (needle s : string) : Prop :=
  exists before after, s = before ++ needle ++ after.

Definition upperChar (c : ascii) : ascii :=
  let n := nat_of_ascii c in
  if (97 <=? n)%nat && (n <=? 122)%nat then ascii_of_nat (n - 32) else c.

Definition lowerChar (c : ascii) : ascii :=
  let n := nat_of_ascii c in
  if (65 <=? n)%nat && (n <=? 90)%nat then ascii_of_nat (n + 32) else c.

Fixpoint mapChars (f : ascii -> ascii) (s : string) : string :=
  match s with
  | EmptyString => EmptyString
  | String c rest => String (f c) (mapChars f rest)
  end.

(** [s.toUpperCase()] and [s.toLowerCase()], on the ASCII letters. *)
Definition toUpperCase (s : string) : string := mapChars upperChar s.
Definition toLowerCase (s : string) : string := mapChars lowerChar s.

(** White space and line terminators are what [trim] strips. Strings
    are sequences of bytes, those of the UTF-8 form of the JavaScript
    string; a white space takes one, two or three bytes.

    One byte: space, tab, line feed, vertical tab, form feed and
    carriage return. *)
Definition isWhiteSpace (c : ascii) : bool :=
  let n := nat_of_ascii c in
  (n =? 32)%nat || ((9 <=? n)%nat && (n <=? 13)%nat).

(** Two bytes: U+00A0, the no-break space. *)
Definition isWhiteSpace2 (a b : ascii) : bool :=
  (nat_of_ascii a =? 194)%nat && (nat_of_ascii b =? 160)%nat.

(** Three bytes: U+1680, U+2000 to U+200A, the line separators U+2028
    and U+2029, U+202F, U+205F, U+3000 and U+FEFF. *)
Definition isWhiteSpace3 (a b c : ascii) : bool :=
  let x := nat_of_ascii a in
  let y := nat_of_ascii b in
  let z := nat_of_ascii c in
  ((x =? 225) && (y =? 154) && (z =? 128))%nat
  || ((x =? 226) && (y =? 128)
      && (((128 <=? z) && (z <=? 138)) || (z =? 168) || (z =? 169)
          || (z =? 175)))%nat
  || ((x =? 226) && (y =? 129) && (z =? 159))%nat
  || ((x =? 227) && (y =? 128) && (z =? 128))%nat
  || ((x =? 239) && (y =? 187) && (z =? 191))%nat.

(** [s.trimStart()]. *)
Fixpoint trimStart (s : string) : string :=
  match s with
  | EmptyString => EmptyString
  | String a rest1 =>
      if isWhiteSpace a then trimStart rest1
      else
        match rest1 with
        | EmptyString => s
        | String b rest2 =>
            if isWhiteSpace2 a b then trimStart rest2
            else
              match rest2 with
              | EmptyString => s
              | String c rest3 =>
                  if isWhiteSpace3 a b c then trimStart rest3 else s
              end
        end
  end.

(** [s] is made of white space only. *)
Fixpoint allWhiteSpace (s : string) : bool :=
  match s with
  | EmptyString => true
  | String a rest1 =>
      if isWhiteSpace a then allWhiteSpace rest1
      else
        match rest1 with
        | EmptyString => false
        | String b rest2 =>
            if isWhiteSpace2 a b then allWhiteSpace rest2
            else
              match rest2 with
              | EmptyString => false
              | String c rest3 =>
                  if isWhiteSpace3 a b c then allWhiteSpace rest3 else false
              end
        end
  end.

(** [s.trimEnd()]: [s] up to the point from which only white space
    follows. *)
Fixpoint trimEnd (s : string) : string :=
  if allWhiteSpace s then EmptyString
  else match s with
       | EmptyString => EmptyString
       | String c rest => String c (trimEnd rest)
       end.

(** [s.trim()]. *)
Definition trim (s : string) : string := trimEnd (trimStart s).

(** [s.startsWith(prefix)]. *)
Definition startsWith (prefix s : string) : bool := String.prefix prefix s.

(** [s.endsWith(suffix)]: [s] itself or what is left of it after some
    characters is [suffix]. *)
Fixpoint endsWith (suffix s : string) : bool :=
  if String.eqb s suffix then true
  else match s with
       | EmptyString => false
       | String _ rest => endsWith suffix rest
       end.

(** [s.slice(start, end)] for indices that are not negative: the
    characters from [start] up to, not including, [end]; none when
    [end] is not after [start]. *)
Definition slice (s : string) (start finish : nat) : string :=
  String.substring start (finish - start) s.

End JsString.

(* ===================================================================== *)
(** ** Settings *)
(* ===================================================================== *)

Module Settings.

(** Waits are in seconds. *)
Definition DEFAULT_STEP_WAIT_SECONDS : float := 5%float.
Definition DEFAULT_ACTION_WAIT_SECONDS : float := 0.5%float.

Inductive ResponseTiming := page | network | step | stepWithThinkTime.
Inductive ConsoleMethod := log | info | debug | warn | error.

(** [TestSettings]: every property is optional; [None] is a property
    that is absent (reads as [undefined]). *)
Record TestSettings := mkTestSettings {
  duration : option float;
  loopCount : option float;
  actionDelay : option float;
  stepDelay : option float;
  userAgent : option string;
  device : option string;
  waitTimeout : option float;
  clearCookies : option bool;
  clearCache : option bool;
  disableCache : option bool;
  name : option string;
  description : option string;
  screenshotOnFailure : option bool;
  DOMSnapshotOnFailure : option bool;
  responseTimeMeasurement : option ResponseTiming;
  consoleFilter : option (list ConsoleMethod);
  ignoreHTTPSErrors : option bool
}.

(** The object with no property set, [{}]. *)
Definition emptySettings : TestSettings :=
  mkTestSettings None None None None None None None None None
                 None None None None None None None None.

(** Assignments [settings.waitTimeout = v], [settings.actionDelay = v]
    and [settings.stepDelay = v]. *)
Definition set_waitTimeout (v : float) (s : TestSettings) : TestSettings :=
  mkTestSettings (duration s) (loopCount s) (actionDelay s) (stepDelay s)
    (userAgent s) (device s) (Some v) (clearCookies s) (clearCache s)
    (disableCache s) (name s) (description s) (screenshotOnFailure s)
    (DOMSnapshotOnFailure s) (responseTimeMeasurement s) (consoleFilter s)
    (ignoreHTTPSErrors s).

Definition set_actionDelay (v : float) (s : TestSettings) : TestSettings :=
  mkTestSettings (duration s) (loopCount s) (Some v) (stepDelay s)
    (userAgent s) (device s) (waitTimeout s) (clearCookies s) (clearCache s)
    (disableCache s) (name s) (description s) (screenshotOnFailure s)
    (DOMSnapshotOnFailure s) (responseTimeMeasurement s) (consoleFilter s)
    (ignoreHTTPSErrors s).

Definition set_stepDelay (v : float) (s : TestSettings) : TestSettings :=
  mkTestSettings (duration s) (loopCount s) (actionDelay s) (Some v)
    (userAgent s) (device s) (waitTimeout s) (clearCookies s) (clearCache s)
    (disableCache s) (name s) (description s) (screenshotOnFailure s)
    (DOMSnapshotOnFailure s) (responseTimeMeasurement s) (consoleFilter s)
    (ignoreHTTPSErrors s).

(** [typeof x === 'number' && x > bound] on an optional number. *)
Definition isNumberAbove (bound : float) (x : option float) : bool :=
  match x with
  | Some v => (bound <? v)%float
  | None => false
  end.

(** [Number(x)] on an optional number: [Number(undefined)] is NaN. *)
Definition Number (x : option float) : float :=
  match x with
  | Some v => v
  | None => nan
  end.

(** [Number(x) === 0]; the comparison is false on NaN and true on
    both zeros. *)
Definition isZero (x : option float) : bool := (Number x =? 0)%float.

(** The value read back after the branch [x > bound] was taken. *)
Definition toSeconds (x : option float) : float := (Number x / 1000)%float.

Definition normalizeWaitTimeout (settings : TestSettings) : TestSettings :=
  if isNumberAbove 1000 (waitTimeout settings) then
    set_waitTimeout (toSeconds (waitTimeout settings)) settings
  else if isZero (waitTimeout settings) then
    set_waitTimeout 30 settings
  else settings.

Definition normalizeActionDelay (settings : TestSettings) : TestSettings :=
  if isNumberAbove 60 (actionDelay settings) then
    set_actionDelay (toSeconds (actionDelay settings)) settings
  else if isZero (actionDelay settings) then
    set_actionDelay DEFAULT_ACTION_WAIT_SECONDS settings
  else settings.

(** The third statement of [normalizeSettings]; its zero branch
    assigns [settings.actionDelay], as the source does. *)
Definition normalizeStepDelay (settings : TestSettings) : TestSettings :=
  if isNumberAbove 60 (stepDelay settings) then
    set_stepDelay (toSeconds (stepDelay settings)) settings
  else if isZero (stepDelay settings) then
    set_actionDelay DEFAULT_STEP_WAIT_SECONDS settings
  else settings.

(** [normalizeSettings] updates the object in place and returns it;
    the three statements run in this order. *)
Definition normalizeSettings (settings : TestSettings) : TestSettings :=
  normalizeStepDelay (normalizeActionDelay (normalizeWaitTimeout settings)).

(** What [actionDelay] is after the second statement. *)
Definition actionDelayAfterSecond (s : TestSettings) : option float :=
  if isNumberAbove 60 (actionDelay s) then Some (toSeconds (actionDelay s))
  else if isZero (actionDelay s) then Some DEFAULT_ACTION_WAIT_SECONDS
  else actionDelay s.

(** The settings [{ stepDelay: 0 }]. *)
Definition zeroStepDelay : TestSettings := set_stepDelay 0 emptySettings.

(** The settings [{ actionDelay: 2000, stepDelay: 0 }]. *)
Definition millisecondsActionDelay : TestSettings :=
  set_actionDelay 2000 zeroStepDelay.

End Settings.

(* ===================================================================== *)
(** ** Promises *)
(* ===================================================================== *)

Module Promise.

(** How a promise settles. *)
Inductive Outcome (E A : Type) : Type :=
| Resolved (value : A)
| Rejected (reason : E).
Arguments Resolved {E A} value.
Arguments Rejected {E A} reason.

(** A promise held as a value, without being awaited. *)
Inductive Promise (E A : Type) : Type :=
| pending (settles : Outcome E A).
Arguments pending {E A} settles.

(** JavaScript's ToBoolean, on the types of the values the code tests. *)
Class ToBoolean (A : Type) := toBoolean : A -> bool.

(** A promise is an object: it is truthy however it settles. *)
#[export] Instance promise_toBoolean {E A} : ToBoolean (Promise E A) :=
  fun _ => true.

(** [string | null]: [null] and the empty string are falsy. *)
#[export] Instance nullable_string_toBoolean : ToBoolean (option string) :=
  fun v => match v with
           | Some s => negb (String.eqb s "")
           | None => false
           end.

Section Async.
Context {Page : Type}.

(** An asynchronous call that only observes the page. *)
Definition Query (E A : Type) : Type := Page -> Outcome E A.

(** An asynchronous call that may act on the page: the page it leaves
    behind is returned with the outcome, also when it rejects. *)
Definition Async (E A : Type) : Type := Page -> Outcome E A * Page.

Definition resolve {E A} (a : A) : Async E A := fun pg => (Resolved a, pg).
Definition throw {E A} (e : E) : Async E A := fun pg => (Rejected e, pg).

(** [await m] followed by the rest of the function body. *)
Definition await {E A B} (m : Async E A) (k : A -> Async E B) : Async E B :=
  fun pg =>
    match m pg with
    | (Resolved a, pg') => k a pg'
    | (Rejected e, pg') => (Rejected e, pg')
    end.

(** [try { return await m } catch (e) { handler }]. *)
Definition tryCatch {E E' A} (m : Async E A) (handler : E -> Async E' A)
  : Async E' A :=
  fun pg =>
    match m pg with
    | (Resolved a, pg') => (Resolved a, pg')
    | (Rejected e, pg') => handler e pg'
    end.

Definition observe {E A} (q : Query E A) : Async E A := fun pg => (q pg, pg).

Definition awaitQ {E A B} (q : Query E A) (k : A -> Query E B) : Query E B :=
  fun pg =>
    match q pg with
    | Resolved a => k a pg
    | Rejected e => Rejected e
    end.

End Async.
Arguments Query Page E A : clear implicits.
Arguments Async Page E A : clear implicits.

End Promise.

(* ===================================================================== *)
(** ** ElementHandle *)
(* ===================================================================== *)

(** The class of page/ElementHandle.ts, over puppeteer's element
    handle. The browser is not part of the repository: a handle of
    puppeteer is given by what each of its calls does to the page and
    how it settles. Messages to [debug] and [console.log] are left
    out, and so are [findElement], [findElements], [dispose] and the
    highlighting, which only forward to other modules. *)

Module ElementHandle.
Import JsString Promise.

(** The [stack] property of an error: the trace the engine captured
    when the error was constructed, or a string assigned later. *)
Inductive StackTrace : Type :=
| captured
| assigned (trace : string).

(** An [Error] object, as thrown by the browser library or the engine. *)
Record JsError : Type := mkJsError {
  errorName : string;
  message : string;
  stack : StackTrace
}.

Definition new_Error (msg : string) : JsError := mkJsError "Error" msg captured.
Definition new_TypeError (msg : string) : JsError :=
  mkJsError "TypeError" msg captured.

(** Modelled from the spec: the class [DocumentedError]
    (utils/DocumentedError) is not among the sources. A documented error
    is recorded by the call that made it: the constructor, with the
    message, the explanation, the call context and the original error,
    or the static [wrapUnhandledError], with the original error, the
    message and the call context. *)
Inductive DocumentedError : Type :=
| new_DocumentedError (msg doc callContext : string) (originalError : JsError)
| wrapUnhandledError (err : JsError) (msg callContext : string).

(** What a decorated method throws: an error of the engine, or a
    documented error together with the value of its [stack]. *)
Inductive Exception : Type :=
| Raw (e : JsError)
| Documented (d : DocumentedError) (stack : StackTrace).

(** [{x, y, width, height}], puppeteer's bounding box. *)
Record BoundingBox : Type := mkBoundingBox {
  x : float;
  y : float;
  width : float;
  height : float
}.

Record Size : Type := mkSize { size_width : float; size_height : float }.
Record Location : Type := mkLocation { location_x : float; location_y : float }.

(** An optional argument as a call may pass it: left out
    ([undefined]), [null], or a value. *)
Inductive Optional (A : Type) : Type :=
| Undefined
| Null
| Given (value : A).
Arguments Undefined {A}.
Arguments Null {A}.
Arguments Given {A} value.

(** The functions this file sends to the page with
    [executionContext().evaluate(fn, this.element, ...)]. *)
Inductive PageFunction : Type :=
| resetSelectedIndex          (* element.selectedIndex = -1 *)
| clearValue                  (* element.value = '' *)
| blurNode                    (* node.blur() *)
| readAttribute (key : string)(* element.getAttribute(key) *)
| trimmedTextContent.         (* element.textContent && element.textContent.trim() *)

Section Handle.
Context {Page ClickOptions ScreenshotOptions : Type}.

(** A handle to a value in the page, as [getProperty] returns it. *)
Record JSHandle : Type := mkJSHandle {
  jsonValue : Query Page JsError (option string)
}.

(** Puppeteer's element handle, by the calls this file makes on it.
    Actions change the page; reading a property or the bounding box
    only observes it. *)
Record PElementHandle : Type := mkPElementHandle {
  p_click : option ClickOptions -> Async Page JsError unit;
  p_focus : Async Page JsError unit;
  p_press : string -> Async Page JsError unit;
  p_type : string -> Async Page JsError unit;
  p_screenshot : string -> option ScreenshotOptions -> Async Page JsError unit;
  p_evaluate : PageFunction -> Async Page JsError (option string);
  p_getProperty : string -> Query Page JsError JSHandle;
  p_boundingBox : Query Page JsError (option BoundingBox);
  (** whether [asElement()] gives the handle itself rather than [null] *)
  p_isElement : bool
}.

Definition asElement (element : PElementHandle) : option PElementHandle :=
  if p_isElement element then Some element else None.

Record ScreenshotSaver : Type := mkScreenshotSaver {
  saveScreenshot : (string -> Async Page JsError bool) -> Async Page JsError unit
}.

Record ElementHandle : Type := mkElementHandle {
  element : PElementHandle;
  errorString : string;
  screenshotSaver : option ScreenshotSaver
}.

(** [new ElementHandle(element)]. *)
Definition new_ElementHandle (element : PElementHandle) : ElementHandle :=
  mkElementHandle element "<element-handle>" None.

Definition bindBrowser (sss : ScreenshotSaver) (this : ElementHandle)
  : ElementHandle :=
  mkElementHandle (element this) (errorString this) (Some sss).

Definition toErrorString (this : ElementHandle) : string := errorString this.

(** The module's [getProperty] helper. The handle it obtained is
    disposed of without waiting. *)
Definition getProperty (element : option PElementHandle) (prop : string)
  : Query Page JsError (option string) :=
  match element with
  | None => fun _ => Resolved None
  | Some el =>
      awaitQ (p_getProperty el prop) (fun handle =>
      awaitQ (jsonValue handle) (fun value =>
      fun _ => Resolved value))
  end.

(** [v === s] and [s == v] for [v : string | null]. *)
Definition equalsString (v : option string) (s : string) : bool :=
  match v with
  | Some t => String.eqb t s
  | None => false
  end.

(** An interpreter of errors, called as
    [interpreter(e, this, propertyKey, callCtx, ...args)]. *)
Definition ErrorInterpreter (Args : Type) : Type :=
  JsError -> ElementHandle -> string -> string -> Args -> DocumentedError.

(** The decorator [wrapDescriptiveError(...errorInterpreters)], applied
    to the method [originalFn] named [propertyKey]. [calltimeStack] is
    the stack trace the engine gives at call time. With no interpreter,
    [errorInterpreters[0]] is [undefined] and calling it is a
    TypeError, thrown from inside the [catch] block. *)
Definition wrapDescriptiveError {Args R : Type}
    (errorInterpreters : list (ErrorInterpreter Args))
    (propertyKey : string)
    (originalFn : ElementHandle -> Args -> Async Page JsError R)
    (calltimeStack : string) (this : ElementHandle) (args : Args)
  : Async Page Exception R :=
  tryCatch (originalFn this args) (fun e =>
    let callCtx := toErrorString this ++ "." ++ propertyKey in
    match errorInterpreters !! 0%nat with
    | Some interpreter =>
        let newError := interpreter e this propertyKey callCtx args in
        throw (Documented newError (assigned calltimeStack))
    | None =>
        throw (Raw (new_TypeError "errorInterpreters[0] is not a function"))
    end).

Definition detachedExplanation (action : string) : string :=
  "The DOM node you tried to " ++ action
  ++ " was no longer attached to the browser's DOM tree.

  This may have been caused by:
  - Changes to the DOM between the time you located the element and "
  ++ action ++ "ed it.".

Definition domError (action : string) : ErrorInterpreter (option ClickOptions) :=
  fun err target key callCtx options =>
    if includes "Node is detached from document" (message err) then
      new_DocumentedError
        ("Unable to " ++ action ++ " " ++ toErrorString target
         ++ " as it is no longer in the DOM")
        (detachedExplanation action)
        callCtx
        err
    else
      wrapUnhandledError err
        ("Unable to " ++ action ++ " selector " ++ toErrorString target)
        callCtx.

(** *** The Locator interface *)

Definition find {Ctx Node : Type} (this : ElementHandle)
    (context : Ctx) (node : option Node)
  : Async Page JsError (option ElementHandle) :=
  resolve (Some this).

Definition findMany {Ctx Node : Type} (this : ElementHandle)
    (context : Ctx) (node : option Node)
  : Async Page JsError (list ElementHandle) :=
  resolve [this].

Definition pageFuncArgs (this : ElementHandle) : list PElementHandle :=
  [element this].

(** *** Properties and attributes *)

Definition tagName (this : ElementHandle) : Query Page JsError (option string) :=
  getProperty (Some (element this)) "tagName".

Definition getAttribute (this : ElementHandle) (key : string)
  : Async Page JsError (option string) :=
  match asElement (element this) with
  | None => resolve None
  | Some handle => p_evaluate handle (readAttribute key)
  end.

Definition getId (this : ElementHandle) : Async Page JsError (option string) :=
  getAttribute this "id".

Definition getPropertyOf (this : ElementHandle) (key : string)
  : Query Page JsError (option string) :=
  getProperty (Some (element this)) key.

(** *** The decorated methods

    Each takes the call-time stack first, then [this] and its
    arguments. *)

Definition click : string -> ElementHandle -> option ClickOptions
                   -> Async Page Exception unit :=
  wrapDescriptiveError [domError "click"] "click"
    (fun this options => p_click (element this) options).

Definition clear : string -> ElementHandle -> unit -> Async Page Exception unit :=
  wrapDescriptiveError [] "clear"
    (fun this _ =>
       await (observe (tagName this)) (fun tagName =>
       if equalsString tagName "SELECT" then
         await (p_evaluate (element this) resetSelectedIndex) (fun _ => resolve tt)
       else if equalsString tagName "INPUT" then
         await (p_evaluate (element this) clearValue) (fun _ => resolve tt)
       else resolve tt)).

Definition focus : string -> ElementHandle -> unit -> Async Page Exception unit :=
  wrapDescriptiveError [] "focus"
    (fun this _ => await (p_focus (element this)) resolve).

Definition blur : string -> ElementHandle -> unit -> Async Page Exception unit :=
  wrapDescriptiveError [] "blur"
    (fun this _ =>
       await (p_evaluate (element this) blurNode) (fun _ => resolve tt)).

(** The values of the [Key] enumeration (page/Enums), which is not
    among the sources. *)
Variable Key_values : list string.

Definition isKey (key : string) : bool :=
  existsb (String.eqb key) Key_values.

Fixpoint sendEach (handle : PElementHandle) (keys : list string)
  : Async Page JsError unit :=
  match keys with
  | [] => resolve tt
  | key :: rest =>
      await (if isKey key then p_press handle key else p_type handle key)
            (fun _ => sendEach handle rest)
  end.

Definition sendKeys : string -> ElementHandle -> list string
                      -> Async Page Exception unit :=
  wrapDescriptiveError [] "sendKeys"
    (fun this keys =>
       match asElement (element this) with
       | None => resolve tt
       | Some handle => sendEach handle keys
       end).

Definition type : string -> ElementHandle -> string -> Async Page Exception unit :=
  wrapDescriptiveError [] "type"
    (fun this text =>
       match asElement (element this) with
       | None => resolve tt
       | Some handle => p_type handle text
       end).

(** [takeScreenshot]; [p_screenshot handle path options] is the call
    [handle.screenshot({ path, ...options })]. *)
Definition takeScreenshot : string -> ElementHandle -> option ScreenshotOptions
                            -> Async Page Exception unit :=
  wrapDescriptiveError [] "takeScreenshot"
    (fun this options =>
       match screenshotSaver this with
       | None =>
           throw (new_TypeError "Cannot read property 'saveScreenshot' of undefined")
       | Some saver =>
           saveScreenshot saver (fun path =>
             match asElement (element this) with
             | None => resolve false
             | Some handle =>
                 await (p_screenshot handle path options) (fun _ => resolve true)
             end)
       end).

(** *** State of the element *)

Definition isSelectable (this : ElementHandle) : Query Page JsError bool :=
  awaitQ (tagName this) (fun tagName =>
    if equalsString tagName "OPTION" then fun _ => Resolved true
    else if equalsString tagName "INPUT" then
      let type := toLowerCase "INPUT" in
      fun _ => Resolved (String.eqb type "checkbox" || String.eqb type "radio")
    else fun _ => Resolved false).

(** [isSelected]. The guard is [await !this.isSelectable()]: the
    negation is applied to the promise, and the boolean it gives is
    what is awaited. Further down [value] is the promise returned by
    [getProperty], which is not awaited either. *)
Definition isSelected (this : ElementHandle) : Query Page JsError bool :=
  fun pg =>
    let selectable : Promise JsError bool := pending (isSelectable this pg) in
    awaitQ (fun _ => Resolved (negb (toBoolean selectable))) (fun notSelectable =>
      if notSelectable : bool then
        fun _ => Rejected (new_Error "Element is not selectable")
      else
        awaitQ (tagName this) (fun tagName =>
          let type : option string :=
            if toBoolean tagName then toUpperCase <$> tagName else tagName in
          let propertyName :=
            if equalsString type "CHECKBOX" || equalsString type "RADIO"
            then "checked" else "selected" in
          let value : Promise JsError (option string) :=
            pending (getProperty (Some (element this)) propertyName pg) in
          fun _ => Resolved (negb (negb (toBoolean value))))) pg.

Definition isDisplayed (this : ElementHandle) : Query Page JsError bool :=
  awaitQ (p_boundingBox (element this)) (fun box =>
    fun _ => Resolved (match box with Some _ => true | None => false end)).

Definition isEnabled (this : ElementHandle) : Async Page JsError bool :=
  await (getAttribute this "disabled") (fun disabled =>
    resolve (match disabled with None => true | Some _ => false end)).

Definition text (this : ElementHandle) : Async Page JsError (option string) :=
  p_evaluate (element this) trimmedTextContent.

Definition size (this : ElementHandle) : Query Page JsError Size :=
  awaitQ (p_boundingBox (element this)) (fun box =>
    match box with
    | None => fun _ => Resolved (mkSize 0 0)
    | Some b => fun _ => Resolved (mkSize (width b) (height b))
    end).

Definition location (this : ElementHandle) : Query Page JsError Location :=
  awaitQ (p_boundingBox (element this)) (fun box =>
    match box with
    | None => fun _ => Resolved (mkLocation 0 0)
    | Some b => fun _ => Resolved (mkLocation (x b) (y b))
    end).

(** [initErrorString(foundVia)]: the handle with its [errorString]
    set. The part about how the element was found is left out only
    when [foundVia] is [null]: [foundVia !== null] also holds when
    [foundVia] is [undefined], which then prints as such. *)
Definition initErrorString (this : ElementHandle) (foundVia : Optional string)
  : Async Page JsError ElementHandle :=
  await (observe (tagName this)) (fun tag =>
  await (getId this) (fun id =>
    let tag := match tag with Some t => t | None => "element-tag" end in
    let estr := "<" ++ toLowerCase tag in
    let estr := match id with
                | Some i => estr ++ " id='#" ++ i ++ "'"
                | None => estr
                end in
    let estr := match foundVia with
                | Null => estr
                | Undefined => estr ++ " found using '" ++ "undefined" ++ "'"
                | Given v => estr ++ " found using '" ++ v ++ "'"
                end in
    let estr := estr ++ ">" in
    resolve (mkElementHandle (element this) estr (screenshotSaver this)))).

End Handle.
Arguments JSHandle Page : clear implicits.
Arguments PElementHandle Page ClickOptions ScreenshotOptions : clear implicits.
Arguments ScreenshotSaver Page : clear implicits.
Arguments ElementHandle Page ClickOptions ScreenshotOptions : clear implicits.

(** *** Sample elements

    A page that only counts the actions made on it, and an element of
    it given by its tag name, its bounding box and the error, if any,
    with which its actions fail. *)

Definition act (failure : option JsError) : Async nat JsError unit :=
  fun count =>
    (match failure with
     | Some e => Rejected e
     | None => Resolved tt
     end, S count).

Definition sampleProperty (tagName : option string) (prop : string)
  : Query nat JsError (JSHandle nat) :=
  fun _ =>
    Resolved (mkJSHandle (fun _ =>
      Resolved (if String.eqb prop "tagName" then tagName else Some "true"))).

Definition sampleElement (tagName : option string) (box : option BoundingBox)
    (failure : option JsError) : PElementHandle nat unit unit :=
  {| p_click := fun _ => act failure;
     p_focus := act failure;
     p_press := fun _ => act failure;
     p_type := fun _ => act failure;
     p_screenshot := fun _ _ => act failure;
     p_evaluate := fun _ count =>
       (match failure with
        | Some e => Rejected e
        | None => Resolved None
        end, S count);
     p_getProperty := sampleProperty tagName;
     p_boundingBox := fun _ => Resolved box;
     p_isElement := true |}.

Definition sampleHandle (tagName : option string) (box : option BoundingBox)
    (failure : option JsError) : ElementHandle nat unit unit :=
  new_ElementHandle (sampleElement tagName box failure).

(** The error puppeteer throws on a node that left the document. *)
Definition detachedError : JsError :=
  new_Error "Node is detached from document".

(** A handle to a value of the page that is no element: its
    [asElement()] is [null]. *)
Definition sampleValue : PElementHandle nat unit unit :=
  {| p_click := fun _ => act None;
     p_focus := act None;
     p_press := fun _ => act None;
     p_type := fun _ => act None;
     p_screenshot := fun _ _ => act None;
     p_evaluate := fun _ count => (Resolved None, S count);
     p_getProperty := sampleProperty None;
     p_boundingBox := fun _ => Resolved None;
     p_isElement := false |}.

(** An element none of whose properties can be read: every read
    rejects with [e], as on a page that was closed. *)
Definition unreadableElement (e : JsError) : PElementHandle nat unit unit :=
  {| p_click := fun _ => act (Some e);
     p_focus := act (Some e);
     p_press := fun _ => act (Some e);
     p_type := fun _ => act (Some e);
     p_screenshot := fun _ _ => act (Some e);
     p_evaluate := fun _ count => (Rejected e, S count);
     p_getProperty := fun _ _ => Rejected e;
     p_boundingBox := fun _ => Rejected e;
     p_isElement := true |}.

(** The error puppeteer throws once the page is gone. *)
Definition closedError : JsError :=
  new_Error "Protocol error (Runtime.callFunctionOn): Target closed.".

(** An element that takes every key but one, on which it fails. *)
Definition stickyKeyElement (stuck : string) : PElementHandle nat unit unit :=
  {| p_click := fun _ => act None;
     p_focus := act None;
     p_press := fun key =>
       act (if String.eqb key stuck then Some detachedError else None);
     p_type := fun key =>
       act (if String.eqb key stuck then Some detachedError else None);
     p_screenshot := fun _ _ => act None;
     p_evaluate := fun _ count => (Resolved None, S count);
     p_getProperty := sampleProperty (Some "INPUT");
     p_boundingBox := fun _ => Resolved None;
     p_isElement := true |}.

End ElementHandle.

(* ===================================================================== *)
(** ** Parser *)
(* ===================================================================== *)

Module Parser.
Import JsString.

(** *** The reflection tree *)

Record CommentTag : Type := mkCommentTag {
  tag : string;
  tag_text : string
}.

Record CommentObject : Type := mkCommentObject {
  shortText : option string;
  text : option string;
  tags : option (list CommentTag)
}.

Record ReflectionFlagsObject : Type := mkFlags {
  isOptional : option bool;
  isExported : option bool;
  isPublic : option bool
}.

(** A parameter as documented: the object built by the [map] of
    [visitCallSignature]. *)
Record ParameterDoc : Type := mkParameterDoc {
  doc_name : string;
  doc_type : string;
  doc_isOptional : bool;
  doc_isReference : bool;
  doc_defaultValue : option string;
  doc_desc : string
}.

(** Modelled from the spec: the class [APIDocument] (./APIDocument) is
    not among the sources. A document is the sequence of the calls made
    on it, oldest first. *)
Inductive DocumentCall : Type :=
| call_section (name : string)
| call_comment (text : string)
| call_frontmatter (meta : gmap string string)
| call_callSignature (params : list ParameterDoc).

Abbreviation APIDocument := (list DocumentCall) (only parsing).

(** A reference to an [APIDocument] object. *)
Abbreviation DocRef := nat (only parsing).

Record ParseIndex : Type := mkParseIndex {
  indexMap : gmap string string;
  indexExports : gmap string string
}.

(** The state of a parser: the documents it holds, by file name, the
    [APIDocument] objects behind the references, the index, the
    reference map, and what was written to the console. *)
Record Parser : Type := mkParser {
  objects : gmap nat (list DocumentCall);
  documents : gmap string nat;
  index : ParseIndex;
  referenceMap : gmap string string;
  console : list string
}.

(** The document behind a reference; one that received no call yet is
    empty. *)
Definition deref (p : Parser) (doc : DocRef) : APIDocument :=
  default [] (objects p !! doc).

(** A method call on the document [doc]. *)
Definition callOn (doc : DocRef) (c : DocumentCall) (p : Parser) : Parser :=
  mkParser (<[doc := (deref p doc ++ [c])%list]> (objects p))
           (documents p) (index p) (referenceMap p) (console p).

(** [console.log(line)]. *)
Definition console_log (line : string) (p : Parser) : Parser :=
  mkParser (objects p) (documents p) (index p) (referenceMap p)
           (console p ++ [line])%list.

(** How a call on the parser ends: it returns, or a TypeError with the
    given message is thrown; either way the parser is left in some
    state. *)
Inductive Completion : Type :=
| Normal (p : Parser)
| Abrupt (message : string) (p : Parser).

Definition state (c : Completion) : Parser :=
  match c with
  | Normal p => p
  | Abrupt _ p => p
  end.

(** The calls of [k] that follow [c] in a function body: they are not
    made once an error was thrown. *)
Definition andThen (c : Completion) (k : Parser -> Completion) : Completion :=
  match c with
  | Normal p => k p
  | Abrupt message p => Abrupt message p
  end.

(** [items.forEach(item => f(item))]: an error thrown for an item ends
    the loop. *)
Fixpoint forEach {A : Type} (f : A -> Parser -> Completion) (items : list A)
    (p : Parser) : Completion :=
  match items with
  | [] => Normal p
  | item :: rest => andThen (f item p) (forEach f rest)
  end.

(** What an object literal inherits from [Object.prototype], by what
    comes of [member.apply(this, [node, doc])] for a node of the tree
    and a document or [undefined]. *)
Inductive PrototypeMember : Type :=
| harmless          (* a function that returns and changes nothing *)
| expectsFunction   (* a function that throws, its second argument being no function *)
| notAFunction.     (* the prototype object itself: it has no [apply] *)

Definition Object_prototype : gmap string PrototypeMember :=
  list_to_map
    [ ("constructor", harmless);
      ("__defineGetter__", expectsFunction);
      ("__defineSetter__", expectsFunction);
      ("hasOwnProperty", harmless);
      ("__lookupGetter__", harmless);
      ("__lookupSetter__", harmless);
      ("isPrototypeOf", harmless);
      ("propertyIsEnumerable", harmless);
      ("toString", harmless);
      ("valueOf", harmless);
      ("__proto__", notAFunction);
      ("toLocaleString", harmless) ].

(** [object[key] = value] on an object literal used as a map: the
    assignment of a string to ['__proto__'] goes to the setter of the
    prototype, which ignores it. *)
Definition setProperty (key value : string) (object : gmap string string)
  : gmap string string :=
  if String.eqb key "__proto__" then object else <[key := value]> object.

(** [Boolean(s)] for [s : string | undefined]: the string when it is
    present and not empty. *)
Definition truthy (s : option string) : option string :=
  match s with
  | Some v => if String.eqb v "" then None else Some v
  | None => None
  end.

Section Tree.
Context {TypeObject : Type}.

(** The source's type [Parameter]. *)
Record ParameterReflectionObject : Type := mkParameter {
  param_name : string;
  param_type : TypeObject;
  param_flags : ReflectionFlagsObject;
  defaultValue : option string;
  param_comment : option CommentObject;
  originalName : option string
}.

Record CallSignatureType : Type := mkCallSignature {
  sig_kindString : string;
  sig_name : string;
  sig_flags : ReflectionFlagsObject;
  parameters : option (list ParameterReflectionObject);
  sig_comment : option CommentObject
}.

#[local] Unset Elimination Schemes.

(** [NodeLike], with the properties of [NodeWithCallSignature] and
    [MethodReflection] that the visitors read after a type guard; a
    node without [signatures] has none. *)
Inductive NodeLike : Type :=
| mkNode (name : string)
         (kindString : option string)
         (children : option (list NodeLike))
         (comment : option CommentObject)
         (signatures : list CallSignatureType)
         (implementationOf : option CallSignatureType).
#[local] Set Elimination Schemes.

Definition name (n : NodeLike) : string :=
  match n with mkNode v _ _ _ _ _ => v end.
Definition kindString (n : NodeLike) : option string :=
  match n with mkNode _ v _ _ _ _ => v end.
Definition children (n : NodeLike) : option (list NodeLike) :=
  match n with mkNode _ _ v _ _ _ => v end.
Definition comment (n : NodeLike) : option CommentObject :=
  match n with mkNode _ _ _ v _ _ => v end.
Definition signatures (n : NodeLike) : list CallSignatureType :=
  match n with mkNode _ _ _ _ v _ => v end.
Definition implementationOf (n : NodeLike) : option CallSignatureType :=
  match n with mkNode _ _ _ _ _ v => v end.

(** What the parser imports and is not among the sources: the type
    guards and predicates of utils/predicates, [fixReferences],
    [typeToString], the console colouring [info], and the [type]
    property of a serialized type. *)
Class Imports : Type := mkImports {
  isClassReflection : NodeLike -> bool;
  isMethodReflection : NodeLike -> bool;
  isNodeOpaque : NodeLike -> bool;
  isNodeInternal : NodeLike -> bool;
  isCallableNode : NodeLike -> bool;
  fixReferences : string -> string;
  typeToString : TypeObject -> string;
  type_of : TypeObject -> string;
  info : string -> string
}.

Context `{Imports}.

(** [if (s) doc.comment(fixReferences(s))]. *)
Definition commentIf (doc : DocRef) (s : option string) (p : Parser) : Parser :=
  match truthy s with
  | Some v => callOn doc (call_comment (fixReferences v)) p
  | None => p
  end.

Definition writeComment (doc : DocRef) (comment : option CommentObject)
    (p : Parser) : Parser :=
  let '(shortText, text) :=
    match comment with
    | Some c => (shortText c, text c)
    | None => (None, None)
    end in
  commentIf doc text (commentIf doc shortText p).

(** The [meta] object of [visitClassComment] after one tag. *)
Definition addTag (meta : gmap string string) (t : CommentTag)
  : gmap string string :=
  let meta := setProperty (tag t) (trim (tag_text t)) meta in
  if String.eqb (tag t) "class" then setProperty "title" (trim (tag_text t)) meta
  else meta.

(** Whether the tag [t] assigns to the property [key] of [meta]: a tag
    assigns to the property of its own name, a 'class' tag to 'title'
    as well, and no assignment reaches '__proto__'. *)
Definition writesKey (key : string) (t : CommentTag) : bool :=
  negb (String.eqb key "__proto__")
  && (String.eqb (tag t) key
      || (String.eqb key "title" && String.eqb (tag t) "class")).

(** The value [meta] has under [key] once the tags [ts] have gone
    through the loop, read off the tags: the trimmed text of the last
    tag that assigns to [key]. *)
Definition frontmatterValue (key : string) (ts : list CommentTag)
  : option string :=
  (fun t => trim (tag_text t))
    <$> last (filter (fun t => writesKey key t = true) ts).

Definition visitClassComment (comment : CommentObject) (doc : DocRef)
    (p : Parser) : Parser :=
  match tags comment with
  | None => p
  | Some ts => callOn doc (call_frontmatter (foldl addTag ∅ ts)) p
  end.

(** [visitClass]; the test of [isNodeOpaque] that ends it has both
    branches return. *)
Definition visitClass (node : NodeLike) (doc : option DocRef) (p : Parser)
  : Parser :=
  let p := console_log (info ("visit Class: " ++ name node)) p in
  match doc with
  | None => p
  | Some doc =>
      let p := callOn doc (call_section (name node)) p in
      let p := writeComment doc (comment node) p in
      match comment node with
      | Some c => visitClassComment c doc p
      | None => p
      end
  end.

(** [[shortText, text].filter(Boolean).map(fixReferences).join('\n')]. *)
Definition description (c : option CommentObject) : string :=
  let '(shortText, text) :=
    match c with
    | Some c => (shortText c, text c)
    | None => (None, None)
    end in
  let kept := omap truthy [shortText; text] in
  String.concat "
" (map fixReferences kept).

Definition documentParameter (param : ParameterReflectionObject) : ParameterDoc :=
  mkParameterDoc
    (param_name param)
    (typeToString (param_type param))
    (default false (isOptional (param_flags param)))
    (String.eqb (type_of (param_type param)) "reference")
    (defaultValue param)
    (description (param_comment param)).

Definition visitCallSignature (signature : CallSignatureType) (doc : DocRef)
    (p : Parser) : Parser :=
  match parameters signature with
  | None => p
  | Some parameters =>
      callOn doc (call_callSignature (map documentParameter parameters)) p
  end.

Definition visitAlias (node : NodeLike) (doc : option DocRef) (p : Parser)
  : Parser := p.
Definition visitExternalModule (node : NodeLike) (doc : option DocRef)
    (p : Parser) : Parser := p.
Definition visitObjectLiteral (node : NodeLike) (doc : option DocRef)
    (p : Parser) : Parser := p.
Definition visitProperty (node : NodeLike) (doc : option DocRef) (p : Parser)
  : Parser := p.
Definition visitVariable (node : NodeLike) (doc : option DocRef) (p : Parser)
  : Parser := p.

Definition visitFunction (node : NodeLike) (doc : option DocRef) (p : Parser)
  : Parser :=
  console_log (info ("Function " ++ name node)) p.

Definition visitMethod (node : NodeLike) (doc : option DocRef) (p : Parser)
  : Parser :=
  if isMethodReflection node then
    match doc with
    | Some doc =>
        let implementationName :=
          match implementationOf node with
          | Some impl => default (name node) (truthy (Some (sig_name impl)))
          | None => name node
          end in
        let p := match implementationOf node with
                 | Some _ => console_log (info ("Method " ++ implementationName)) p
                 | None => p
                 end in
        if isNodeInternal node then p
        else if isCallableNode node then
          foldl (fun p sig => visitCallSignature sig doc p) p (signatures node)
        else p
    | None => p
    end
  else p.

(** The table [visitors], an object literal keyed by kind: its own
    properties. *)
Definition visitors : gmap string (NodeLike -> option DocRef -> Parser -> Parser) :=
  list_to_map
    [ ("Variable", visitVariable);
      ("Module", visitClass);
      ("Enumeration", visitClass);
      ("Class", visitClass);
      ("Interface", visitClass);
      ("Function", visitFunction);
      ("Property", visitProperty);
      ("Method", visitMethod);
      ("External module", visitExternalModule);
      ("Type alias", visitAlias);
      ("Object literal", visitObjectLiteral) ].

(** [visit]. The lookup [this.visitors[node.kindString]] finds an own
    property of the table or, failing that, a property the table
    inherits from [Object.prototype]; what is found is truthy in both
    cases and [visitor.apply(this, [node, doc])] is evaluated. Only a
    kind that is found in neither place gets the TODO line. *)
Definition visit (node : NodeLike) (doc : option DocRef) (p : Parser)
  : Completion :=
  match truthy (kindString node) with
  | Some kind =>
      match visitors !! kind with
      | Some visitor => Normal (visitor node doc p)
      | None =>
          match Object_prototype !! kind with
          | Some harmless => Normal p
          | Some expectsFunction =>
              Abrupt ("Object.prototype." ++ kind ++ ": Expecting function") p
          | Some notAFunction => Abrupt "visitor.apply is not a function" p
          | None => Normal (console_log (info ("TODO: " ++ kind)) p)
          end
      end
  | None => Normal p
  end.

(** [documentForName]. A name that the index only inherits gives a key
    that is no string, under which the parser holds no document. *)
Definition documentForName (p : Parser) (name : string) : option DocRef :=
  match indexExports (index p) !! name with
  | Some key => documents p !! key
  | None => None
  end.

(** The document [walk] goes on with at [node]: the one of the node's
    name when the node is a class reflection and has one, else [doc]. *)
Definition targetDocument (p : Parser) (node : NodeLike) (doc : option DocRef)
  : option DocRef :=
  if isClassReflection node then
    match documentForName p (name node) with
    | Some maybeDoc => Some maybeDoc
    | None => doc
    end
  else doc.

Fixpoint walk (node : NodeLike) (doc : option DocRef) (p : Parser)
  : Completion :=
  let doc := targetDocument p node doc in
  andThen (visit node doc p) (fun p =>
    match node with
    | mkNode _ _ (Some children) _ _ _ =>
        forEach (fun child p => walk child doc p) children p
    | mkNode _ _ None _ _ _ => Normal p
    end).

(** *** The traversal, as the specification words it *)

(** The nodes of a tree in preorder: the node, then the preorder of
    each child, in the order of the children. *)
Fixpoint preorder (node : NodeLike) : list NodeLike :=
  node ::
  match node with
  | mkNode _ _ (Some children) _ _ _ => flat_map preorder children
  | mkNode _ _ None _ _ _ => []
  end.

(** The visits of a walk that starts at [node] with [doc]: the node
    with the document it switches to, then the visits of each child
    under that document. *)
Fixpoint visitOrder (p : Parser) (node : NodeLike) (doc : option DocRef)
  : list (NodeLike * option DocRef) :=
  let doc := targetDocument p node doc in
  (node, doc) ::
  match node with
  | mkNode _ _ (Some children) _ _ _ =>
      flat_map (fun child => visitOrder p child doc) children
  | mkNode _ _ None _ _ _ => []
  end.

(** Two parsers that hold the same documents under the same index. *)
Definition sameIndex (p q : Parser) : Prop :=
  documents p = documents q /\ index p = index q.

(** The visits of a list, made one after the other, up to the first
    that throws. *)
Definition visitAll (visits : list (NodeLike * option DocRef)) (p : Parser)
  : Completion :=
  forEach (fun v p => visit v.1 v.2 p) visits p.

(** The kinds at which a visit throws: names the table inherits that
    cannot be applied to a node and a document. *)
Definition throwingKinds : list string :=
  ["__proto__"; "__defineGetter__"; "__defineSetter__"].

Definition throwsAt (node : NodeLike) : Prop :=
  exists kind, kindString node = Some kind /\ kind ∈ throwingKinds.

End Tree.
Arguments ParameterReflectionObject TypeObject : clear implicits.
Arguments CallSignatureType TypeObject : clear implicits.
Arguments NodeLike TypeObject : clear implicits.
Arguments Imports TypeObject : clear implicits.

(** *** A sample tree

    Types are left out ([unit]); a class reflection is a node of kind
    'Class', a method reflection one of kind 'Method'. *)

Definition hasKind (kind : string) (node : NodeLike unit) : bool :=
  match kindString node with
  | Some k => String.eqb k kind
  | None => false
  end.

Definition sampleImports : Imports unit :=
  {| isClassReflection := hasKind "Class";
     isMethodReflection := hasKind "Method";
     isNodeOpaque := fun _ => false;
     isNodeInternal := fun _ => false;
     isCallableNode := fun node =>
       match signatures node with [] => false | _ => true end;
     fixReferences := fun s => s;
     typeToString := fun _ => "any";
     type_of := fun _ => "intrinsic";
     info := fun s => s |}.

Definition leaf (name : string) (kind : option string) : NodeLike unit :=
  mkNode name kind None None [] None.

(** A class 'Browser' with a constructor, of a kind the table does not
    have, and a method, next to a function. *)
Definition sampleTree : NodeLike unit :=
  mkNode "element" None
    (Some [ mkNode "Browser" (Some "Class")
              (Some [ leaf "constructor" (Some "Constructor");
                      leaf "visit" (Some "Method") ])
              (Some (mkCommentObject (Some "The browser.") None None))
              [] None;
            leaf "step" (Some "Function") ])
    None [] None.

(** A tree whose first child has a kind the table only inherits. *)
Definition abortingTree : NodeLike unit :=
  mkNode "element" None
    (Some [ leaf "inherited" (Some "__proto__");
            leaf "step" (Some "Function") ])
    None [] None.

(** A parser with one document, for the file 'Browser'. *)
Definition sampleParser : Parser :=
  mkParser {[ 0%nat := [] ]} {[ "Browser" := 0%nat ]}
    (mkParseIndex ∅ {[ "Browser" := "Browser" ]}) ∅ [].

(** *** Module names *)

(** The double quote, as a string of one character. *)
Definition doubleQuote : string := String (ascii_of_nat 34) EmptyString.

Definition stripQuotes (name : string) : string :=
  if startsWith doubleQuote name && endsWith doubleQuote name then
    slice name 1 (String.length name - 1)
  else name.

(** The class [Context]: a module name and the parser it belongs to. *)
Record ModContext (DocSource : Type) : Type := mkContext {
  modName : string;      (* the property [mod] *)
  docSource : DocSource
}.
Arguments mkContext {DocSource} modName docSource.
Arguments modName {DocSource} _.
Arguments docSource {DocSource} _.

Definition forMod {DocSource : Type} (this : ModContext DocSource)
    (name : string) : ModContext DocSource :=
  mkContext (stripQuotes name) (docSource this).

Definition toFileName (file : string) : string := file ++ ".md".

(** *** What a walk may change *)

(** [q] has what [p] has and possibly more: the same documents, index
    and reference map, every document of [p] with the calls it had and
    possibly further calls after them, and the console of [p] with
    possibly further lines after. *)
Definition appendsOnly (p q : Parser) : Prop :=
  documents q = documents p
  /\ index q = index p
  /\ referenceMap q = referenceMap p
  /\ (forall doc : nat, deref p doc `prefix_of` deref q doc)
  /\ console p `prefix_of` console q.

(** [q] is [p] after calls on the document [doc] at most: nothing but
    appended, and every document other than [doc] as it was. *)
Definition writesOnly (doc : option nat) (p q : Parser) : Prop :=
  appendsOnly p q
  /\ forall other : nat, doc <> Some other ->
       objects q !! other = objects p !! other.

(** The parser holds the document [doc], under some file name. *)
Definition holds (p : Parser) (doc : nat) : Prop :=
  exists file, documents p !! file = Some doc.

(** *** Parsing *)

Section Parse.
Context {TypeObject : Type} `{!Imports TypeObject}.

(** The files of the index, each once:
    [[...new Set(Object.values(this.index.indexExports))]]. The order
    of the list only decides which reference each new document
    gets. *)
Definition exportedFiles (idx : ParseIndex) : list string :=
  remove_dups (map_to_list (indexExports idx)).*2.

(** [this.documents.set(file, new APIDocument())]: a document that no
    reference of the parser points to yet, without calls, under
    [file]. *)
Definition newDocument (p : Parser) (file : string) : Parser :=
  let ref := fresh (dom (objects p)) in
  mkParser (<[ref := []]> (objects p)) (<[file := ref]> (documents p))
           (index p) (referenceMap p) (console p).

(** [parse()], from the index on: [preParsed] is what [preParseIndex]
    resolved to, read from the index file by the TypeScript compiler,
    and [inspect] is how [console.dir] prints a list of names. When
    [parse] returns, the documents it returns are those of the
    parser. *)
Definition parse (inspect : list string -> string) (preParsed : ParseIndex)
    (typeDoc : NodeLike TypeObject) (p : Parser) : Completion :=
  let p := mkParser (objects p) (documents p) preParsed (referenceMap p)
                    (console p) in
  let files := exportedFiles preParsed in
  let p := console_log (inspect files) p in
  let p := foldl newDocument p files in
  walk typeDoc None p.

End Parse.

(** An index in the manner of the package's index file: two names on
    one page, a third on a page of its own. *)
Definition sampleIndex : ParseIndex :=
  mkParseIndex ∅
    {[ "By" := "By"; "Locator" := "By"; "Browser" := "Browser" ]}.

(** A method with one signature that has a parameter and one that has
    none. *)
Definition sampleMethod : NodeLike unit :=
  mkNode "visit" (Some "Method") None None
    [ mkCallSignature "Call signature" "visit" (mkFlags None None None)
        (Some [ mkParameter "url" tt (mkFlags None None None) None
                  (Some (mkCommentObject (Some "Where to go.") (Some "") None))
                  None ])
        None;
      mkCallSignature "Call signature" "visit" (mkFlags None None None)
        None None ]
    None.

(** A parser as its constructor leaves it, before [parse]. *)
Definition sampleNewParser : Parser :=
  mkParser ∅ ∅ (mkParseIndex ∅ ∅) ∅ [].

End Parser.

(* ===================================================================== *)
(** ** Properties of [normalizeSettings] *)
(* ===================================================================== *)

Module SettingsProofs.
Import Settings.
Local Open Scope float_scope.

(** X5: the settings that are not delays are never touched. *)
Lemma normalizeSettings_other_settings (s : TestSettings) :
  let s' := normalizeSettings s in
  duration s' = duration s /\ loopCount s' = loopCount s
  /\ userAgent s' = userAgent s /\ device s' = device s
  /\ clearCookies s' = clearCookies s /\ clearCache s' = clearCache s
  /\ disableCache s' = disableCache s /\ name s' = name s
  /\ description s' = description s
  /\ screenshotOnFailure s' = screenshotOnFailure s
  /\ DOMSnapshotOnFailure s' = DOMSnapshotOnFailure s
  /\ responseTimeMeasurement s' = responseTimeMeasurement s
  /\ consoleFilter s' = consoleFilter s
  /\ ignoreHTTPSErrors s' = ignoreHTTPSErrors s.
Proof.
  unfold normalizeSettings, normalizeStepDelay, normalizeActionDelay,
    normalizeWaitTimeout.
  repeat match goal with
         | |- context [if ?b then _ else _] => destruct b
         end; cbn; repeat split; reflexivity.
Qed.

(** Only the first statement assigns [waitTimeout]. *)
Lemma waitTimeout_normalizeSettings (s : TestSettings) :
  waitTimeout (normalizeSettings s) = waitTimeout (normalizeWaitTimeout s).
Proof.
  unfold normalizeSettings, normalizeStepDelay, normalizeActionDelay.
  repeat match goal with
         | |- context [if ?b then _ else _] => destruct b
         end; reflexivity.
Qed.

(** Only the [> 60] branch of the third statement assigns [stepDelay]. *)
Lemma stepDelay_normalizeSettings (s : TestSettings) :
  stepDelay (normalizeSettings s)
  = if isNumberAbove 60 (stepDelay s) then Some (toSeconds (stepDelay s))
    else stepDelay s.
Proof.
  unfold normalizeSettings, normalizeStepDelay.
  assert (E : stepDelay (normalizeActionDelay (normalizeWaitTimeout s))
              = stepDelay s).
  { unfold normalizeActionDelay, normalizeWaitTimeout.
    repeat match goal with
           | |- context [if ?b then _ else _] => destruct b
           end; reflexivity. }
  rewrite E.
  destruct (isNumberAbove 60 (stepDelay s)); [reflexivity|].
  destruct (isZero (stepDelay s)); cbn; exact E.
Qed.

(** A number that compares equal to zero is not above a positive bound. *)
Lemma zero_not_above (bound w : float) :
  (0 <? bound) = true -> (w =? 0) = true -> (bound <? w) = false.
Proof.
  rewrite !FloatAxioms.eqb_spec, !FloatAxioms.ltb_spec.
  change (Prim2SF 0) with (S754_zero false).
  unfold SFltb, SFeqb.
  destruct (Prim2SF w) as [s|s| |s m e], (Prim2SF bound) as [s'|s'| |s' m' e'];
    cbn; try congruence.
  all: try (destruct s; cbn; congruence).
  all: try (destruct s'; cbn; congruence).
Qed.

Lemma isZero_not_above (bound : float) (x : option float) :
  (0 <? bound) = true -> isZero x = true -> isNumberAbove bound x = false.
Proof.
  destruct x as [w|]; [|reflexivity].
  unfold isZero, isNumberAbove, Number. apply zero_not_above.
Qed.

(** A zero [waitTimeout] becomes 30. *)
Lemma waitTimeout_zero (s : TestSettings) :
  isZero (waitTimeout s) = true ->
  waitTimeout (normalizeSettings s) = Some 30.
Proof.
  intros Hz. rewrite waitTimeout_normalizeSettings.
  unfold normalizeWaitTimeout.
  rewrite (isZero_not_above 1000 _ eq_refl Hz), Hz. reflexivity.
Qed.

(** A [waitTimeout] above 1000 is divided by 1000. *)
Lemma waitTimeout_milliseconds (s : TestSettings) (w : float) :
  waitTimeout s = Some w -> (1000 <? w) = true ->
  waitTimeout (normalizeSettings s) = Some (w / 1000).
Proof.
  intros Hw Habove. rewrite waitTimeout_normalizeSettings.
  unfold normalizeWaitTimeout, isNumberAbove. rewrite Hw, Habove.
  reflexivity.
Qed.

(** A [waitTimeout] that is neither above 1000 nor zero is kept. *)
Lemma waitTimeout_kept (s : TestSettings) (w : float) :
  waitTimeout s = Some w -> (1000 <? w) = false -> (w =? 0) = false ->
  waitTimeout (normalizeSettings s) = Some w.
Proof.
  intros Hw Habove Hz. rewrite waitTimeout_normalizeSettings.
  unfold normalizeWaitTimeout, isNumberAbove, isZero, Number.
  rewrite Hw, Habove, Hz. exact Hw.
Qed.

(** A [stepDelay] above 60 is divided by 1000. *)
Lemma stepDelay_milliseconds (s : TestSettings) (d : float) :
  stepDelay s = Some d -> (60 <? d) = true ->
  stepDelay (normalizeSettings s) = Some (d / 1000).
Proof.
  intros Hd Habove. rewrite stepDelay_normalizeSettings.
  unfold isNumberAbove, toSeconds, Number. rewrite Hd, Habove. reflexivity.
Qed.

(** A [stepDelay] that is not above 60 is kept, zero included. *)
Lemma stepDelay_kept (s : TestSettings) (d : float) :
  stepDelay s = Some d -> (60 <? d) = false ->
  stepDelay (normalizeSettings s) = Some d.
Proof.
  intros Hd Habove. rewrite stepDelay_normalizeSettings.
  unfold isNumberAbove. rewrite Hd, Habove. reflexivity.
Qed.

(** [actionDelay] is what the second statement left, unless the zero
    branch of the third statement ran and overwrote it. *)
Lemma actionDelay_normalizeSettings (s : TestSettings) :
  actionDelay (normalizeSettings s)
  = if negb (isNumberAbove 60 (stepDelay s)) && isZero (stepDelay s)
    then Some DEFAULT_STEP_WAIT_SECONDS
    else actionDelayAfterSecond s.
Proof.
  unfold normalizeSettings, normalizeStepDelay.
  assert (E : stepDelay (normalizeActionDelay (normalizeWaitTimeout s))
              = stepDelay s).
  { unfold normalizeActionDelay, normalizeWaitTimeout.
    repeat match goal with
           | |- context [if ?b then _ else _] => destruct b
           end; reflexivity. }
  assert (A : actionDelay (normalizeActionDelay (normalizeWaitTimeout s))
              = actionDelayAfterSecond s).
  { unfold actionDelayAfterSecond, normalizeActionDelay.
    assert (A0 : actionDelay (normalizeWaitTimeout s) = actionDelay s).
    { unfold normalizeWaitTimeout.
      repeat match goal with
             | |- context [if ?b then _ else _] => destruct b
             end; reflexivity. }
    rewrite A0.
    destruct (isNumberAbove 60 (actionDelay s)); [reflexivity|].
    destruct (isZero (actionDelay s)); [reflexivity|exact A0]. }
  rewrite E.
  destruct (isNumberAbove 60 (stepDelay s)), (isZero (stepDelay s));
    cbn [negb andb]; try exact A; reflexivity.
Qed.

(** A zero [actionDelay] becomes [DEFAULT_ACTION_WAIT_SECONDS] when
    [stepDelay] is not zero. *)
Lemma actionDelay_zero (s : TestSettings) :
  isZero (actionDelay s) = true -> isZero (stepDelay s) = false ->
  actionDelay (normalizeSettings s) = Some DEFAULT_ACTION_WAIT_SECONDS.
Proof.
  intros Hz Hstep. rewrite actionDelay_normalizeSettings, Hstep.
  rewrite andb_false_r. unfold actionDelayAfterSecond.
  rewrite (isZero_not_above 60 _ eq_refl Hz), Hz. reflexivity.
Qed.

(** An [actionDelay] above 60 is divided by 1000 when [stepDelay] is
    not zero. *)
Lemma actionDelay_milliseconds (s : TestSettings) (a : float) :
  actionDelay s = Some a -> (60 <? a) = true -> isZero (stepDelay s) = false ->
  actionDelay (normalizeSettings s) = Some (a / 1000).
Proof.
  intros Ha Habove Hstep. rewrite actionDelay_normalizeSettings, Hstep.
  rewrite andb_false_r. unfold actionDelayAfterSecond, isNumberAbove.
  rewrite Ha, Habove. reflexivity.
Qed.

(** Whatever [actionDelay] was, a zero [stepDelay] leaves [stepDelay]
    as it is and sets [actionDelay] to [DEFAULT_STEP_WAIT_SECONDS]. *)
Lemma stepDelay_zero_assigns_actionDelay (s : TestSettings) :
  isZero (stepDelay s) = true ->
  stepDelay (normalizeSettings s) = stepDelay s
  /\ actionDelay (normalizeSettings s) = Some DEFAULT_STEP_WAIT_SECONDS.
Proof.
  intros Hz.
  rewrite stepDelay_normalizeSettings, actionDelay_normalizeSettings.
  rewrite (isZero_not_above 60 _ eq_refl Hz), Hz. split; reflexivity.
Qed.

(** C1, at the input [{ stepDelay: 0 }]. The specification has a zero
    [stepDelay] become [DEFAULT_STEP_WAIT_SECONDS] and the other
    settings stay; [normalizeSettings] returns [stepDelay] still zero
    and [actionDelay], which was absent, set to 5. *)
Theorem normalizeSettings_zero_stepDelay :
  normalizeSettings zeroStepDelay
  = set_actionDelay DEFAULT_STEP_WAIT_SECONDS zeroStepDelay
  /\ stepDelay (normalizeSettings zeroStepDelay) = Some 0
  /\ stepDelay (normalizeSettings zeroStepDelay)
     <> Some DEFAULT_STEP_WAIT_SECONDS
  /\ actionDelay zeroStepDelay = None
  /\ actionDelay (normalizeSettings zeroStepDelay) = Some 5.
Proof.
  repeat split; try reflexivity.
  intros E.
  apply (f_equal (fun o => match o with
                           | Some v => (v =? DEFAULT_STEP_WAIT_SECONDS)
                           | None => false
                           end)) in E.
  vm_compute in E. discriminate E.
Qed.

(** C4, at the input [{ actionDelay: 2000, stepDelay: 0 }]. The
    specification has an [actionDelay] above 60 divided by 1000, which
    is 2 here; [normalizeSettings] returns [actionDelay] 5, the zero
    branch of the [stepDelay] statement having overwritten the 2. *)
Theorem normalizeSettings_actionDelay_overwritten :
  isNumberAbove 60 (actionDelay millisecondsActionDelay) = true
  /\ toSeconds (actionDelay millisecondsActionDelay) = 2
  /\ actionDelay (normalizeSettings millisecondsActionDelay) = Some 5
  /\ (5 =? 2) = false.
Proof. repeat split; reflexivity. Qed.

End SettingsProofs.

(* ===================================================================== *)
(** ** Properties of strings *)
(* ===================================================================== *)

Module JsStringProofs.
Import JsString.

Lemma append_cons (c : ascii) (s rest : string) :
  String c s ++ rest = String c (s ++ rest).
Proof. reflexivity. Qed.

Lemma append_nil (s : string) : "" ++ s = s.
Proof. reflexivity. Qed.

Lemma prefix_app (p s : string) :
  String.prefix p s = true <-> exists rest, s = p ++ rest.
Proof.
  revert s. induction p as [|c p IH]; intros s.
  - split; [intros _; exists s; reflexivity | intros _; destruct s; reflexivity].
  - destruct s as [|d s]; cbn [String.prefix].
    + split; [discriminate | intros [rest E]; discriminate E].
    + destruct (Ascii.ascii_dec c d) as [->|Hne].
      * rewrite IH. split; intros [rest E]; exists rest;
          rewrite append_cons in *; congruence.
      * split; [discriminate|].
        intros [rest E]. rewrite append_cons in E. congruence.
Qed.

(** [includes] decides [Contains]. *)
Lemma includes_Contains (needle s : string) :
  includes needle s = true <-> Contains needle s.
Proof.
  unfold Contains. induction s as [|c s IH]; cbn [includes].
  - destruct (String.prefix needle "") eqn:P.
    + apply prefix_app in P as [rest E].
      split; [intros _; exists "", rest; exact E | intros _; reflexivity].
    + split; [discriminate|].
      intros [before [after E]].
      destruct before; [|discriminate E]. rewrite append_nil in E.
      assert (String.prefix needle "" = true) by (apply prefix_app; eauto).
      congruence.
  - destruct (String.prefix needle (String c s)) eqn:P.
    + apply prefix_app in P as [rest E].
      split; [intros _; exists "", rest; exact E | intros _; reflexivity].
    + rewrite IH. split.
      * intros [before [after E]]. exists (String c before), after.
        rewrite append_cons. congruence.
      * intros [before [after E]]. destruct before as [|d before].
        -- rewrite append_nil in E.
           assert (String.prefix needle (String c s) = true)
             by (apply prefix_app; eauto).
           congruence.
        -- rewrite append_cons in E. exists before, after. congruence.
Qed.

Lemma includes_not_Contains (needle s : string) :
  includes needle s = false <-> ~ Contains needle s.
Proof.
  rewrite <- includes_Contains. destruct (includes needle s); split;
    congruence.
Qed.

(** [trim] takes off the white space of ECMAScript at both ends, the
    no-break space and the byte order mark among it, and keeps what is
    inside. *)
Example trim_whiteSpace :
  let nbsp := String (ascii_of_nat 194) (String (ascii_of_nat 160) EmptyString) in
  let bom := String (ascii_of_nat 239) (String (ascii_of_nat 187)
               (String (ascii_of_nat 191) EmptyString)) in
  let lineSeparator := String (ascii_of_nat 226) (String (ascii_of_nat 128)
                         (String (ascii_of_nat 168) EmptyString)) in
  trim (nbsp ++ " Page" ++ nbsp ++ "one " ++ lineSeparator ++ bom)
  = "Page" ++ nbsp ++ "one"
  /\ trim (nbsp ++ bom) = EmptyString
  /\ trim " a  b " = "a  b".
Proof. repeat split. Qed.

End JsStringProofs.

(* ===================================================================== *)
(** ** Properties of [ElementHandle] *)
(* ===================================================================== *)

Module ElementHandleProofs.
Import JsString Promise ElementHandle JsStringProofs.

Section Decorator.
Context {Page ClickOptions ScreenshotOptions Args R : Type}.
Abbreviation Handle := (ElementHandle Page ClickOptions ScreenshotOptions).
Variable errorInterpreters : list (@ErrorInterpreter Page ClickOptions ScreenshotOptions Args).
Variable propertyKey : string.
Variable originalFn : Handle -> Args -> Async Page JsError R.
Variable calltimeStack : string.

(** A result of the method passes through the decorator. *)
Lemma wrapDescriptiveError_resolved (this : Handle) (args : Args)
    (pg pg' : Page) (v : R) :
  originalFn this args pg = (Resolved v, pg') ->
  wrapDescriptiveError errorInterpreters propertyKey originalFn
    calltimeStack this args pg = (Resolved v, pg').
Proof.
  intros E. unfold wrapDescriptiveError, tryCatch. rewrite E. reflexivity.
Qed.

(** With an interpreter, an error of the method is thrown again as the
    interpreter's documented error, under the call-time stack. *)
Lemma wrapDescriptiveError_interpreted (this : Handle) (args : Args)
    (pg pg' : Page) (e : JsError) interpreter :
  originalFn this args pg = (Rejected e, pg') ->
  errorInterpreters !! 0%nat = Some interpreter ->
  wrapDescriptiveError errorInterpreters propertyKey originalFn
    calltimeStack this args pg
  = (Rejected
       (Documented
          (interpreter e this propertyKey
             (toErrorString this ++ "." ++ propertyKey) args)
          (assigned calltimeStack)), pg').
Proof.
  intros E I. unfold wrapDescriptiveError, tryCatch. rewrite E, I.
  reflexivity.
Qed.

(** Without one, an error of the method is lost: what is thrown is
    the TypeError of calling [undefined]. *)
Lemma wrapDescriptiveError_uninterpreted (this : Handle) (args : Args)
    (pg pg' : Page) (e : JsError) :
  originalFn this args pg = (Rejected e, pg') ->
  errorInterpreters = [] ->
  wrapDescriptiveError errorInterpreters propertyKey originalFn
    calltimeStack this args pg
  = (Rejected (Raw (new_TypeError "errorInterpreters[0] is not a function")),
     pg').
Proof.
  intros E ->. unfold wrapDescriptiveError, tryCatch. rewrite E.
  reflexivity.
Qed.

(** The page after a decorated call is the page after one run of the
    method: the decorator runs it once and acts on the page no
    further. *)
Lemma wrapDescriptiveError_page (this : Handle) (args : Args) (pg : Page) :
  (wrapDescriptiveError errorInterpreters propertyKey originalFn
     calltimeStack this args pg).2
  = (originalFn this args pg).2.
Proof.
  unfold wrapDescriptiveError, tryCatch.
  destruct (originalFn this args pg) as [[v|e] pg']; [reflexivity|].
  destruct (errorInterpreters !! 0%nat); reflexivity.
Qed.

(** The decorator never swallows an error. *)
Lemma wrapDescriptiveError_rejects (this : Handle) (args : Args)
    (pg pg' : Page) (e : JsError) :
  originalFn this args pg = (Rejected e, pg') ->
  exists ex, wrapDescriptiveError errorInterpreters propertyKey originalFn
               calltimeStack this args pg = (Rejected ex, pg').
Proof.
  intros E. unfold wrapDescriptiveError, tryCatch. rewrite E.
  destruct (errorInterpreters !! 0%nat); eauto.
Qed.

End Decorator.

(** C2, at a [focus] on an element whose underlying [focus] throws
    "Node is detached from document". The specification has the method
    throw a rewrapped error carrying a contextual message; the
    decorator of [focus] was given no interpreter, and the method
    throws the TypeError "errorInterpreters[0] is not a function", in
    which neither the original error nor a context is left. The
    underlying [focus] ran once: the page counts one action. *)
Theorem focus_error_not_rewrapped :
  let h := sampleHandle (Some "INPUT") None (Some detachedError) in
  p_focus (element h) 0%nat = (Rejected detachedError, 1%nat)
  /\ focus "at call time" h tt 0%nat
     = (Rejected (Raw (new_TypeError "errorInterpreters[0] is not a function")),
        1%nat)
  /\ forall d st, focus "at call time" h tt 0%nat
                  <> (Rejected (Documented d st), 1%nat).
Proof.
  cbn zeta. split; [reflexivity|]. split; [reflexivity|].
  intros d st E. vm_compute in E. discriminate E.
Qed.

Section Methods.
Context {Page ClickOptions ScreenshotOptions : Type}.
Abbreviation Handle := (ElementHandle Page ClickOptions ScreenshotOptions).

(** C3: when the underlying [click] throws [e], [click] throws a
    DocumentedError under the call-time stack. If the message of [e]
    contains "Node is detached from document", it is the error
    constructed with the message "Unable to click <errorString> as it
    is no longer in the DOM", the explanation for the user written out
    below, the call context and [e]; otherwise it is
    [DocumentedError.wrapUnhandledError] of [e] with the message
    "Unable to click selector <errorString>". *)
Theorem click_documents_error (calltimeStack : string) (this : Handle)
    (options : option ClickOptions) (pg pg' : Page) (e : JsError) :
  p_click (element this) options pg = (Rejected e, pg') ->
  (Contains "Node is detached from document" (message e) ->
   click calltimeStack this options pg
   = (Rejected
        (Documented
           (new_DocumentedError
              ("Unable to click " ++ errorString this
               ++ " as it is no longer in the DOM")
              "The DOM node you tried to click was no longer attached to the browser's DOM tree.

  This may have been caused by:
  - Changes to the DOM between the time you located the element and clicked it."
              (errorString this ++ ".click")
              e)
           (assigned calltimeStack)), pg'))
  /\ (~ Contains "Node is detached from document" (message e) ->
      click calltimeStack this options pg
      = (Rejected
           (Documented
              (wrapUnhandledError e
                 ("Unable to click selector " ++ errorString this)
                 (errorString this ++ ".click"))
              (assigned calltimeStack)), pg')).
Proof.
  intros E. unfold click.
  rewrite (wrapDescriptiveError_interpreted [domError "click"] "click" _
             calltimeStack this options pg pg' e (domError "click") E eq_refl).
  unfold domError, toErrorString. split; intros C.
  - apply includes_Contains in C. rewrite C. reflexivity.
  - apply includes_not_Contains in C. rewrite C. reflexivity.
Qed.

(** C7: [find] resolves to the handle itself, which is not [null],
    and [findMany] to the list of that one handle, whatever the
    context and the node. *)
Theorem find_is_identity {Ctx Node : Type} (this : Handle) (context : Ctx)
    (node : option Node) (pg : Page) :
  find this context node pg = (Resolved (Some this), pg)
  /\ findMany this context node pg = (Resolved [this], pg).
Proof. split; reflexivity. Qed.

(** [isSelected] in full: it resolves to [true] whenever the tag name
    can be read, and rejects with the error of that read otherwise. *)
Lemma isSelected_outcome (this : Handle) (pg : Page) :
  isSelected this pg
  = match tagName this pg with
    | Resolved _ => Resolved true
    | Rejected e => Rejected e
    end.
Proof.
  unfold isSelected, awaitQ. cbn. destruct (tagName this pg); reflexivity.
Qed.


Lemma equalsString_true (v : option string) (s : string) :
  equalsString v s = true <-> v = Some s.
Proof.
  destruct v as [t|]; cbn.
  - rewrite String.eqb_eq. split; congruence.
  - split; discriminate.
Qed.

(** C9: [isSelectable] resolves to [true] exactly when the tag name of
    the element is 'OPTION'; for an INPUT element it resolves to
    [false]. *)
Theorem isSelectable_only_option (this : Handle) (pg : Page) :
  (isSelectable this pg = Resolved true
   <-> tagName this pg = Resolved (Some "OPTION"))
  /\ (tagName this pg = Resolved (Some "INPUT") ->
      isSelectable this pg = Resolved false).
Proof.
  unfold isSelectable, awaitQ. split.
  - destruct (tagName this pg) as [t|e]; [|split; discriminate].
    destruct (equalsString t "OPTION") eqn:O.
    + apply equalsString_true in O as ->. split; reflexivity.
    + assert (N : t <> Some "OPTION").
      { intros ->. discriminate O. }
      destruct (equalsString t "INPUT"); cbn; split; intros E;
        solve [discriminate E | congruence].
  - intros ->. reflexivity.
Qed.

(** C10: when the bounding box of the underlying handle resolves to
    [null], [isDisplayed] resolves to [false], [size] to a zero width
    and height, and [location] to the origin. *)
Theorem no_boundingBox (this : Handle) (pg : Page) :
  p_boundingBox (element this) pg = Resolved None ->
  isDisplayed this pg = Resolved false
  /\ size this pg = Resolved (mkSize 0 0)
  /\ location this pg = Resolved (mkLocation 0 0).
Proof.
  intros E. unfold isDisplayed, size, location, awaitQ. rewrite E.
  repeat split; reflexivity.
Qed.

End Methods.

(** The methods decorated without an interpreter, on an error of
    their body. *)
Section Uninterpreted.
Context {Page ClickOptions ScreenshotOptions : Type}.
Abbreviation Handle := (ElementHandle Page ClickOptions ScreenshotOptions).

Lemma focus_uninterpreted (calltimeStack : string) (this : Handle)
    (pg pg' : Page) (e : JsError) :
  p_focus (element this) pg = (Rejected e, pg') ->
  focus calltimeStack this tt pg
  = (Rejected (Raw (new_TypeError "errorInterpreters[0] is not a function")),
     pg').
Proof.
  intros E. unfold focus.
  apply wrapDescriptiveError_uninterpreted with (e := e); [|reflexivity].
  unfold await. rewrite E. reflexivity.
Qed.

Lemma blur_uninterpreted (calltimeStack : string) (this : Handle)
    (pg pg' : Page) (e : JsError) :
  p_evaluate (element this) blurNode pg = (Rejected e, pg') ->
  blur calltimeStack this tt pg
  = (Rejected (Raw (new_TypeError "errorInterpreters[0] is not a function")),
     pg').
Proof.
  intros E. unfold blur.
  apply wrapDescriptiveError_uninterpreted with (e := e); [|reflexivity].
  unfold await. rewrite E. reflexivity.
Qed.

Lemma type_uninterpreted (calltimeStack : string) (this : Handle)
    (text : string) (pg pg' : Page) (e : JsError) :
  p_isElement (element this) = true ->
  p_type (element this) text pg = (Rejected e, pg') ->
  type calltimeStack this text pg
  = (Rejected (Raw (new_TypeError "errorInterpreters[0] is not a function")),
     pg').
Proof.
  intros El E. unfold type.
  apply wrapDescriptiveError_uninterpreted with (e := e); [|reflexivity].
  unfold asElement. rewrite El. exact E.
Qed.

End Uninterpreted.

(** *** The theorems at sample elements *)

Lemma click_documents_error_witness :
  let h := sampleHandle (Some "BUTTON") None (Some detachedError) in
  click "at call time" h None 0%nat
  = (Rejected
       (Documented
          (new_DocumentedError
             "Unable to click <element-handle> as it is no longer in the DOM"
             "The DOM node you tried to click was no longer attached to the browser's DOM tree.

  This may have been caused by:
  - Changes to the DOM between the time you located the element and clicked it."
             "<element-handle>.click"
             detachedError)
          (assigned "at call time")), 1%nat).
Proof.
  intros h.
  apply (proj1 (click_documents_error "at call time" h None 0%nat 1%nat
                  detachedError eq_refl)).
  apply includes_Contains. reflexivity.
Defined.



Lemma isSelectable_only_option_witness :
  let h := sampleHandle (Some "INPUT") None None in
  isSelectable h 0%nat = Resolved false.
Proof.
  intros h. apply (proj2 (isSelectable_only_option h 0%nat)). reflexivity.
Defined.

Lemma no_boundingBox_witness :
  let h := sampleHandle (Some "DIV") None None in
  isDisplayed h 0%nat = Resolved false
  /\ size h 0%nat = Resolved (mkSize 0 0)
  /\ location h 0%nat = Resolved (mkLocation 0 0).
Proof.
  intros h. apply (no_boundingBox h 0%nat). reflexivity.
Defined.

End ElementHandleProofs.

(* ===================================================================== *)
(** ** Properties of [Parser] *)
(* ===================================================================== *)

Module ParserProofs.
Import JsString Parser.

Section Tree.
Context {TypeObject : Type} `{!Imports TypeObject}.
Abbreviation Node := (NodeLike TypeObject).

(** Induction on a tree, with the property at hand for every child. *)
Lemma NodeLike_ind (P : Node -> Prop) :
  (forall name kindString children comment signatures implementationOf,
      (forall cs, children = Some cs -> Forall P cs) ->
      P (mkNode name kindString children comment signatures implementationOf)) ->
  forall node, P node.
Proof.
  intros step. fix IH 1. intros [n k cs c s i]. apply step.
  destruct cs as [l|]; [|intros cs E; discriminate E].
  assert (F : Forall P l).
  { induction l as [|child l IHl]; constructor; [apply IH | exact IHl]. }
  intros cs E. injection E as <-. exact F.
Qed.

Lemma sameIndex_refl (p : Parser) : sameIndex p p.
Proof. split; reflexivity. Qed.

Lemma sameIndex_trans (p q r : Parser) :
  sameIndex p q -> sameIndex q r -> sameIndex p r.
Proof. intros [? ?] [? ?]. split; congruence. Qed.

Lemma sameIndex_sym (p q : Parser) : sameIndex p q -> sameIndex q p.
Proof. intros [? ?]. split; congruence. Qed.

Lemma callOn_sameIndex (doc : nat) (c : DocumentCall) (p : Parser) :
  sameIndex (callOn doc c p) p.
Proof. split; reflexivity. Qed.

Lemma console_log_sameIndex (line : string) (p : Parser) :
  sameIndex (console_log line p) p.
Proof. split; reflexivity. Qed.

Lemma console_log_objects (line : string) (p : Parser) :
  objects (console_log line p) = objects p.
Proof. reflexivity. Qed.

Create HintDb frame discriminated.
#[local] Hint Resolve sameIndex_refl callOn_sameIndex console_log_sameIndex
  : frame.

Lemma commentIf_sameIndex (doc : nat) (s : option string) (p : Parser) :
  sameIndex (commentIf doc s p) p.
Proof. unfold commentIf. destruct (truthy s); auto with frame. Qed.

Lemma writeComment_sameIndex (doc : nat) (c : option CommentObject)
    (p : Parser) :
  sameIndex (writeComment doc c p) p.
Proof.
  unfold writeComment.
  destruct c as [c|];
    (eapply sameIndex_trans; [apply commentIf_sameIndex|]);
    apply commentIf_sameIndex.
Qed.

Lemma visitClassComment_sameIndex (c : CommentObject) (doc : nat)
    (p : Parser) :
  sameIndex (visitClassComment c doc p) p.
Proof. unfold visitClassComment. destruct (tags c); auto with frame. Qed.

Lemma visitClass_sameIndex (node : Node) (doc : option nat) (p : Parser) :
  sameIndex (visitClass node doc p) p.
Proof.
  unfold visitClass. destruct doc as [doc|]; [|auto with frame].
  destruct (comment node) as [c|].
  - eapply sameIndex_trans; [apply visitClassComment_sameIndex|].
    eapply sameIndex_trans; [apply writeComment_sameIndex|].
    eapply sameIndex_trans; [apply callOn_sameIndex|].
    apply console_log_sameIndex.
  - eapply sameIndex_trans; [apply writeComment_sameIndex|].
    eapply sameIndex_trans; [apply callOn_sameIndex|].
    apply console_log_sameIndex.
Qed.

Lemma visitCallSignature_sameIndex (sig : CallSignatureType TypeObject)
    (doc : nat) (p : Parser) :
  sameIndex (visitCallSignature sig doc p) p.
Proof. unfold visitCallSignature. destruct (parameters sig); auto with frame. Qed.

Lemma visitMethod_sameIndex (node : Node) (doc : option nat) (p : Parser) :
  sameIndex (visitMethod node doc p) p.
Proof.
  unfold visitMethod.
  destruct (isMethodReflection node); [|apply sameIndex_refl].
  destruct doc as [doc|]; [|apply sameIndex_refl].
  set (q := match implementationOf node with
            | Some _ => _
            | None => p
            end).
  assert (Q : sameIndex q p).
  { subst q. destruct (implementationOf node); auto with frame. }
  destruct (isNodeInternal node); [exact Q|].
  destruct (isCallableNode node); [|exact Q].
  clearbody q. revert q Q.
  induction (signatures node) as [|sig sigs IH]; intros q Q; [exact Q|].
  cbn. apply IH.
  eapply sameIndex_trans; [apply visitCallSignature_sameIndex | exact Q].
Qed.

(** The functions the table holds. *)
Lemma visitors_lookup (kind : string)
    (visitor : Node -> option nat -> Parser -> Parser) :
  visitors !! kind = Some visitor ->
  visitor ∈ [ visitVariable; visitClass; visitFunction; visitProperty;
              visitMethod; visitExternalModule; visitAlias;
              visitObjectLiteral ].
Proof.
  unfold visitors. intros L%elem_of_list_to_map_2.
  repeat (apply elem_of_cons in L as [L|L];
          [injection L as -> ->; set_solver|]).
  apply elem_of_nil in L. destruct L.
Qed.

Lemma visitor_sameIndex (kind : string)
    (visitor : Node -> option nat -> Parser -> Parser) :
  visitors !! kind = Some visitor ->
  forall node doc p, sameIndex (visitor node doc p) p.
Proof.
  intros L%visitors_lookup node doc p.
  repeat (apply elem_of_cons in L as [->|L];
          [first [ apply visitClass_sameIndex
                 | apply visitMethod_sameIndex
                 | apply console_log_sameIndex
                 | apply sameIndex_refl ] |]).
  apply elem_of_nil in L. destruct L.
Qed.

(** A visit leaves the documents the parser holds, and the index, as
    they are: it only calls methods of the document it is given. *)
Lemma visit_sameIndex (node : Node) (doc : option nat) (p : Parser) :
  sameIndex (state (visit node doc p)) p.
Proof.
  unfold visit. destruct (truthy (kindString node)) as [kind|];
    [|apply sameIndex_refl].
  destruct (visitors !! kind) as [visitor|] eqn:L.
  - eapply visitor_sameIndex; exact L.
  - destruct (Object_prototype !! kind) as [[]|];
      first [apply sameIndex_refl | apply console_log_sameIndex].
Qed.

Lemma forEach_app {A : Type} (f : A -> Parser -> Completion)
    (a b : list A) (p : Parser) :
  forEach f (a ++ b) p = andThen (forEach f a p) (forEach f b).
Proof.
  revert p. induction a as [|x a IH]; intros p; [reflexivity|].
  cbn [app forEach]. destruct (f x p) as [q|m q]; [apply IH | reflexivity].
Qed.

Lemma visitAll_app (a b : list (Node * option nat)) (p : Parser) :
  visitAll (a ++ b) p = andThen (visitAll a p) (visitAll b).
Proof. apply forEach_app. Qed.

Lemma visitAll_cons (v : Node * option nat) (visits : list (Node * option nat))
    (p : Parser) :
  visitAll (v :: visits) p = andThen (visit v.1 v.2 p) (visitAll visits).
Proof. reflexivity. Qed.

Lemma visitAll_sameIndex (visits : list (Node * option nat)) (p : Parser) :
  sameIndex (state (visitAll visits p)) p.
Proof.
  revert p. induction visits as [|v visits IH]; intros p.
  - apply sameIndex_refl.
  - rewrite visitAll_cons.
    pose proof (visit_sameIndex v.1 v.2 p) as V.
    destruct (visit v.1 v.2 p) as [q|m q]; cbn [andThen state] in *.
    + eapply sameIndex_trans; [apply IH | exact V].
    + exact V.
Qed.

Lemma targetDocument_sameIndex (p q : Parser) (node : Node)
    (doc : option nat) :
  sameIndex p q -> targetDocument p node doc = targetDocument q node doc.
Proof.
  intros [D I]. unfold targetDocument, documentForName. rewrite D, I.
  reflexivity.
Qed.

Lemma visitOrder_sameIndex (p q : Parser) (node : Node) :
  sameIndex p q ->
  forall doc, visitOrder p node doc = visitOrder q node doc.
Proof.
  intros S. induction node as [n k cs c s i IH] using NodeLike_ind.
  intros doc. cbn [visitOrder].
  rewrite (targetDocument_sameIndex p q _ doc S).
  generalize (targetDocument q (mkNode n k cs c s i) doc). intros doc'.
  f_equal. destruct cs as [l|]; [|reflexivity].
  specialize (IH l eq_refl).
  induction IH as [|child l Hchild _ IHl]; cbn [flat_map]; [reflexivity|].
  rewrite Hchild, IHl. reflexivity.
Qed.

(** The walk of a node, written out once. *)
Lemma walk_unfold (node : Node) (doc : option nat) (p : Parser) :
  walk node doc p
  = andThen (visit node (targetDocument p node doc) p)
      (forEach (fun child q => walk child (targetDocument p node doc) q)
               (default [] (children node))).
Proof.
  destruct node as [n k [l|] c s i]; cbn [walk children default];
    destruct (visit _ _ p); reflexivity.
Qed.

(** The walk makes the visits of [visitOrder], one after the other, up
    to the first that throws. *)
Lemma walk_visitAll (node : Node) :
  forall doc p, walk node doc p = visitAll (visitOrder p node doc) p.
Proof.
  induction node as [n k cs c s i IH] using NodeLike_ind.
  intros doc p. rewrite walk_unfold. cbn [visitOrder children].
  generalize (targetDocument p (mkNode n k cs c s i) doc). intros doc'.
  rewrite visitAll_cons. cbn [fst snd].
  pose proof (visit_sameIndex (mkNode n k cs c s i) doc' p) as S.
  destruct (visit (mkNode n k cs c s i) doc' p) as [q|m q];
    [|reflexivity].
  cbn [andThen state] in *.
  destruct cs as [l|]; [|reflexivity].
  change (default [] (Some l)) with l.
  specialize (IH l eq_refl). revert q S.
  induction IH as [|child l Hchild _ IHl]; intros q S; [reflexivity|].
  cbn [forEach flat_map]. cbn beta. rewrite visitAll_app, Hchild.
  rewrite (visitOrder_sameIndex q p child S).
  pose proof (visitAll_sameIndex (visitOrder p child doc') q) as S'.
  destruct (visitAll (visitOrder p child doc') q) as [q'|m q'];
    [|reflexivity].
  cbn [andThen state] in *. apply IHl.
  eapply sameIndex_trans; [exact S' | exact S].
Qed.

(** The nodes visited are the nodes of the tree in preorder. *)
Lemma visitOrder_preorder (p : Parser) (node : Node) :
  forall doc, (visitOrder p node doc).*1 = preorder node.
Proof.
  induction node as [n k cs c s i IH] using NodeLike_ind.
  intros doc. cbn [visitOrder preorder fmap list_fmap fst].
  generalize (targetDocument p (mkNode n k cs c s i) doc). intros doc'.
  f_equal. destruct cs as [l|]; [|reflexivity].
  specialize (IH l eq_refl).
  induction IH as [|child l Hchild _ IHl]; cbn [flat_map]; [reflexivity|].
  rewrite fmap_app, Hchild. f_equal. exact IHl.
Qed.

(** The entries of the table, kind by kind. *)
Lemma visitors_entries :
  visitors !! "Variable" = Some visitVariable
  /\ visitors !! "Module" = Some visitClass
  /\ visitors !! "Enumeration" = Some visitClass
  /\ visitors !! "Class" = Some visitClass
  /\ visitors !! "Interface" = Some visitClass
  /\ visitors !! "Function" = Some visitFunction
  /\ visitors !! "Property" = Some visitProperty
  /\ visitors !! "Method" = Some visitMethod
  /\ visitors !! "External module" = Some visitExternalModule
  /\ visitors !! "Type alias" = Some visitAlias
  /\ visitors !! "Object literal" = Some visitObjectLiteral.
Proof. repeat split; reflexivity. Qed.

(** The kinds the table has an entry for. *)
Lemma visitors_kinds (kind : string) :
  is_Some (visitors !! kind)
  <-> kind ∈ [ "Variable"; "Module"; "Enumeration"; "Class"; "Interface";
               "Function"; "Property"; "Method"; "External module";
               "Type alias"; "Object literal" ].
Proof.
  unfold visitors. rewrite <- elem_of_dom, dom_list_to_map_L.
  rewrite elem_of_list_to_set. reflexivity.
Qed.

Lemma truthy_Some (s : option string) (v : string) :
  truthy s = Some v <-> s = Some v /\ v <> "".
Proof.
  unfold truthy. destruct s as [w|]; [|split; [discriminate|intros [? _]; discriminate]].
  destruct (String.eqb_spec w "") as [->|N]; split.
  - discriminate.
  - intros [[= <-] N]. contradiction.
  - intros [= ->]. split; [reflexivity | exact N].
  - intros [[= ->] _]. reflexivity.
Qed.

(** The inherited names that cannot be applied are the throwing
    kinds. *)
Lemma prototype_throwing (kind : string) (member : PrototypeMember) :
  Object_prototype !! kind = Some member ->
  member <> harmless <-> kind ∈ throwingKinds.
Proof.
  unfold Object_prototype, throwingKinds. intros L%elem_of_list_to_map_2.
  repeat (apply elem_of_cons in L as [L|L];
          [injection L as -> ->; split;
           [ intros N; first [ contradiction
                             | apply elem_of_cons; left; reflexivity
                             | apply elem_of_cons; right;
                               apply elem_of_cons; left; reflexivity
                             | apply elem_of_cons; right;
                               apply elem_of_cons; right;
                               apply elem_of_cons; left; reflexivity ]
           | intros In; first [ discriminate
                              | exfalso;
                                repeat (apply elem_of_cons in In as [In|In];
                                        [discriminate In|]);
                                apply elem_of_nil in In; exact In ] ]
          |]).
  apply elem_of_nil in L. destruct L.
Qed.

Lemma throwingKinds_inherited (kind : string) :
  kind ∈ throwingKinds ->
  visitors !! kind = None
  /\ kind <> ""
  /\ exists member, Object_prototype !! kind = Some member /\ member <> harmless.
Proof.
  unfold throwingKinds. intros In.
  repeat (apply elem_of_cons in In as [->|In];
          [split; [reflexivity|]; split; [discriminate|];
           eexists; split; [reflexivity | discriminate] |]).
  apply elem_of_nil in In. destruct In.
Qed.

(** A visit throws at the throwing kinds, leaving the parser as it
    was, and returns everywhere else. *)
Lemma visit_throws (node : Node) (doc : option nat) (p : Parser) :
  throwsAt node -> exists message, visit node doc p = Abrupt message p.
Proof.
  intros (kind & K & In).
  destruct (throwingKinds_inherited kind In) as (V & N & member & O & H).
  unfold visit. rewrite K. cbn [truthy].
  destruct (String.eqb_spec kind "") as [->|_]; [contradiction|].
  rewrite V, O. destruct member; [contradiction | eauto | eauto].
Qed.

Lemma visit_returns (node : Node) (doc : option nat) (p : Parser) :
  ~ throwsAt node -> exists q, visit node doc p = Normal q.
Proof.
  intros N. unfold visit.
  destruct (truthy (kindString node)) as [kind|] eqn:T; [|eauto].
  apply truthy_Some in T as [K _].
  destruct (visitors !! kind); [eauto|].
  destruct (Object_prototype !! kind) as [member|] eqn:O; [|eauto].
  destruct member; [eauto | |];
    (exfalso; apply N; exists kind; split; [exact K|];
     apply (prototype_throwing kind _ O); discriminate).
Qed.

Lemma visitAll_returns (visits : list (Node * option nat)) :
  Forall (fun v => ~ throwsAt v.1) visits ->
  forall p, exists q, visitAll visits p = Normal q.
Proof.
  induction 1 as [|v visits N _ IH]; intros p; [eexists; reflexivity|].
  rewrite visitAll_cons.
  destruct (visit_returns v.1 v.2 p N) as [q ->]. apply IH.
Qed.

(** C5, amended: [visit] dispatches on [kindString] through the table
    [visitors], whose kinds are Variable, Module, Enumeration, Class,
    Interface, Function, Property, Method, 'External module',
    'Type alias' and 'Object literal': a node of a kind of the table is
    handed to the visitor of that kind. For a node without
    [kindString], or of a kind without an entry, the documents of the
    parser, and the objects behind them, are after the visit as they
    were; the visit returns unless the kind is '__proto__',
    '__defineGetter__' or '__defineSetter__', names the table inherits
    from [Object.prototype], at which it throws a TypeError. *)
Theorem visit_dispatch (node : Node) (doc : option nat) (p : Parser) :
  (forall kind,
      is_Some (visitors !! kind)
      <-> kind ∈ [ "Variable"; "Module"; "Enumeration"; "Class"; "Interface";
                   "Function"; "Property"; "Method"; "External module";
                   "Type alias"; "Object literal" ])
  /\ (forall kind visitor,
        kindString node = Some kind -> visitors !! kind = Some visitor ->
        visit node doc p = Normal (visitor node doc p))
  /\ (kindString node = None
      \/ (exists kind, kindString node = Some kind /\ visitors !! kind = None) ->
      objects (state (visit node doc p)) = objects p
      /\ documents (state (visit node doc p)) = documents p
      /\ ((forall kind, kindString node = Some kind ->
             kind ∉ ["__proto__"; "__defineGetter__"; "__defineSetter__"]) ->
          exists q, visit node doc p = Normal q)
      /\ (forall kind, kindString node = Some kind ->
            kind ∈ ["__proto__"; "__defineGetter__"; "__defineSetter__"] ->
            exists message, visit node doc p = Abrupt message p)).
Proof.
  split; [exact visitors_kinds|]. split.
  - intros kind visitor K L. unfold visit. rewrite K. cbn [truthy].
    destruct (String.eqb_spec kind "") as [->|_].
    + discriminate L.
    + rewrite L. reflexivity.
  - intros H. split; [|split; [|split]].
    + destruct H as [K|[kind [K L]]]; unfold visit; rewrite K; cbn [truthy];
        [reflexivity|].
      destruct (String.eqb kind ""); [reflexivity|]. rewrite L.
      destruct (Object_prototype !! kind) as [[]|]; reflexivity.
    + apply visit_sameIndex.
    + intros N. apply visit_returns. intros (kind & K & In).
      exact (N kind K In).
    + intros kind K In. apply visit_throws. exists kind. split; assumption.
Qed.

(** What [targetDocument] is: for a class reflection whose name the
    index exports to a file under which the parser holds a document,
    that document; for any other node, [doc]. *)
Lemma targetDocument_switch (p : Parser) (node : Node) (doc : option nat) :
  (forall file d,
      isClassReflection node = true ->
      indexExports (index p) !! name node = Some file ->
      documents p !! file = Some d ->
      targetDocument p node doc = Some d)
  /\ (isClassReflection node = false
      \/ (forall file, indexExports (index p) !! name node = Some file ->
             documents p !! file = None) ->
      targetDocument p node doc = doc).
Proof.
  unfold targetDocument, documentForName. split.
  - intros file d -> I D. rewrite I, D. reflexivity.
  - intros [->|N]; [reflexivity|].
    destruct (isClassReflection node); [|reflexivity].
    destruct (indexExports (index p) !! name node) as [file|] eqn:I;
      [|reflexivity].
    rewrite (N file eq_refl). reflexivity.
Qed.


End Tree.

(** *** The theorems at the sample tree *)

Lemma visit_dispatch_witness :
  let node := leaf "constructor" (Some "Constructor") in
  let class := leaf "Browser" (Some "Class") in
  let inherited := leaf "setter" (Some "__defineSetter__") in
  visit (H := sampleImports) class (Some 0%nat) sampleParser
  = Normal (visitClass (H := sampleImports) class (Some 0%nat) sampleParser)
  /\ objects (state (visit (H := sampleImports) node (Some 0%nat) sampleParser))
     = objects sampleParser
  /\ documents (state (visit (H := sampleImports) node (Some 0%nat)
                         sampleParser))
     = documents sampleParser
  /\ (exists q, visit (H := sampleImports) node (Some 0%nat) sampleParser
                = Normal q)
  /\ (exists message,
        visit (H := sampleImports) inherited (Some 0%nat) sampleParser
        = Abrupt message sampleParser).
Proof.
  intros node class inherited. split.
  { apply (proj1 (proj2 (visit_dispatch (Imports0 := sampleImports) class
                           (Some 0%nat) sampleParser)) "Class");
      reflexivity. }
  destruct (proj2 (proj2 (visit_dispatch (Imports0 := sampleImports) node
                            (Some 0%nat) sampleParser))) as (O & D & R & _).
  { right. exists "Constructor". split; reflexivity. }
  split; [exact O|]. split; [exact D|]. split.
  - apply R. intros kind [= <-] In.
    repeat (apply elem_of_cons in In as [In|In]; [discriminate In|]).
    apply elem_of_nil in In. exact In.
  - destruct (proj2 (proj2 (visit_dispatch (Imports0 := sampleImports)
                              inherited (Some 0%nat) sampleParser)))
      as (_ & _ & _ & T).
    { right. exists "__defineSetter__". split; reflexivity. }
    apply (T "__defineSetter__" eq_refl).
    apply elem_of_cons. right. apply elem_of_cons. right.
    apply elem_of_cons. left. reflexivity.
Defined.

(** C5, at a node of kind '__proto__': the table has no entry of that
    name, and the specification has the visit not fail; the lookup
    finds the prototype of the table, which is no function, and the
    visit throws. *)
Lemma visit_dispatch_counterexample :
  let node := leaf "inherited" (Some "__proto__") in
  visitors (H := sampleImports) !! "__proto__" = None
  /\ visit (H := sampleImports) node None sampleParser
     = Abrupt "visitor.apply is not a function" sampleParser.
Proof. split; reflexivity. Qed.



(** The walk of the sample tree: the class goes to the document of its
    name, and so do its children; the root and the function are
    visited with no document. *)
Example walk_sampleTree :
  (visitOrder (H := sampleImports) sampleParser sampleTree None).*2
  = [None; Some 0%nat; Some 0%nat; Some 0%nat; None]
  /\ objects (state (walk (H := sampleImports) sampleTree None sampleParser))
       !! 0%nat
     = Some [call_section "Browser"; call_comment "The browser."]
  /\ console (state (walk (H := sampleImports) sampleTree None sampleParser))
     = ["visit Class: Browser"; "TODO: Constructor"; "Function step"].
Proof. repeat split; vm_compute; reflexivity. Qed.

End ParserProofs.

(* ===================================================================== *)
(** ** Further properties of [normalizeSettings] *)
(* ===================================================================== *)

Module SettingsEdges.
Import Settings SettingsProofs.
Local Open Scope float_scope.

(** X1: settings in which none of [waitTimeout], [actionDelay] and
    [stepDelay] is set come back as they are: an absent delay is not
    given its default, since [Number(undefined)] is NaN and NaN is not
    zero. *)
Theorem normalizeSettings_absent_delays (s : TestSettings) :
  waitTimeout s = None -> actionDelay s = None -> stepDelay s = None ->
  normalizeSettings s = s.
Proof.
  destruct s; cbn. intros -> -> ->. reflexivity.
Qed.

Lemma normalizeSettings_absent_delays_witness :
  let s := mkTestSettings (Some 60) None None None (Some "agent") None None
             (Some true) None None None None None None (Some page) None None in
  normalizeSettings s = s.
Proof.
  intros s. apply (normalizeSettings_absent_delays s); reflexivity.
Defined.

(** X2: what [waitTimeout] becomes depends on [waitTimeout] alone:
    absent it stays absent, above 1000 it is divided by 1000, zero
    becomes 30, and any other number is kept. *)
Theorem waitTimeout_rule (s : TestSettings) :
  waitTimeout (normalizeSettings s)
  = match waitTimeout s with
    | None => None
    | Some w =>
        Some (if 1000 <? w then w / 1000 else if w =? 0 then 30 else w)
    end.
Proof.
  rewrite waitTimeout_normalizeSettings. unfold normalizeWaitTimeout.
  destruct (waitTimeout s) as [w|] eqn:W; cbn.
  - destruct (1000 <? w); [reflexivity|].
    destruct (w =? 0); [reflexivity | exact W].
  - exact W.
Qed.

(** X3: [stepDelay] is only ever converted, never defaulted: absent it
    stays absent, above 60 it is divided by 1000, and any other
    number, zero included, is kept. *)
Theorem stepDelay_rule (s : TestSettings) :
  stepDelay (normalizeSettings s)
  = match stepDelay s with
    | None => None
    | Some d => Some (if 60 <? d then d / 1000 else d)
    end.
Proof.
  rewrite stepDelay_normalizeSettings.
  destruct (stepDelay s) as [d|]; cbn; [|reflexivity].
  destruct (60 <? d); reflexivity.
Qed.

(** A negative number is neither above a positive bound nor zero. *)
Lemma negative_not_above (bound w : float) :
  (0 <? bound) = true -> (w <? 0) = true ->
  (bound <? w) = false /\ (w =? 0) = false.
Proof.
  rewrite !FloatAxioms.eqb_spec, !FloatAxioms.ltb_spec.
  change (Prim2SF 0) with (S754_zero false).
  unfold SFltb, SFeqb.
  destruct (Prim2SF w) as [s|s| |s m e], (Prim2SF bound) as [s'|s'| |s' m' e'];
    cbn; try congruence.
  all: destruct s, s'; cbn; try congruence; split; reflexivity.
Qed.

(** X4: a negative [waitTimeout] or [stepDelay], such as -1, is kept
    as it is. *)
Theorem negative_delays_kept (s : TestSettings) (v : float) :
  (v <? 0) = true ->
  (waitTimeout s = Some v -> waitTimeout (normalizeSettings s) = Some v)
  /\ (stepDelay s = Some v -> stepDelay (normalizeSettings s) = Some v).
Proof.
  intros N. split; intros E.
  - destruct (negative_not_above 1000 v eq_refl N) as [A Z].
    apply waitTimeout_kept; assumption.
  - destruct (negative_not_above 60 v eq_refl N) as [A _].
    apply stepDelay_kept; assumption.
Qed.

Lemma negative_delays_kept_witness :
  let s := set_waitTimeout (-1) emptySettings in
  waitTimeout (normalizeSettings s) = Some (-1).
Proof.
  intros s.
  apply (proj1 (negative_delays_kept s (-1) eq_refl)). reflexivity.
Defined.

End SettingsEdges.

(* ===================================================================== *)
(** ** Further properties of [ElementHandle] *)
(* ===================================================================== *)

Module ElementHandleEdges.
Import JsString Promise ElementHandle JsStringProofs ElementHandleProofs.

Section Decorated.
Context {Page ClickOptions ScreenshotOptions : Type}.
Abbreviation Handle := (ElementHandle Page ClickOptions ScreenshotOptions).

(** A decorated call resolves only if the method did, with the same
    value and page. *)
Lemma wrapDescriptiveError_resolved_inv {Args R : Type}
    (interpreters : list (@ErrorInterpreter Page ClickOptions ScreenshotOptions Args))
    (key : string) (f : Handle -> Args -> Async Page JsError R)
    (calltimeStack : string) (this : Handle) (args : Args) (pg pg' : Page)
    (v : R) :
  wrapDescriptiveError interpreters key f calltimeStack this args pg
  = (Resolved v, pg') ->
  f this args pg = (Resolved v, pg').
Proof.
  unfold wrapDescriptiveError, tryCatch.
  destruct (f this args pg) as [[w|e] pg'']; [congruence|].
  destruct (interpreters !! 0%nat); discriminate.
Qed.

(** X6: whatever its interpreters, a decorated method is transparent
    for success and never turns a failure into a success: the page it
    leaves is the page its body leaves, a value the body resolves to is
    the value it resolves to, and when the body rejects it rejects. *)
Theorem decorator_transparent {Args R : Type}
    (interpreters : list (@ErrorInterpreter Page ClickOptions ScreenshotOptions Args))
    (key : string) (f : Handle -> Args -> Async Page JsError R)
    (calltimeStack : string) (this : Handle) (args : Args) (pg : Page) :
  let body := f this args pg in
  let call := wrapDescriptiveError interpreters key f calltimeStack this args pg in
  call.2 = body.2
  /\ match body.1 with
     | Resolved v => call.1 = Resolved v
     | Rejected _ => exists ex, call.1 = Rejected ex
     end.
Proof.
  cbn zeta. unfold wrapDescriptiveError, tryCatch.
  destruct (f this args pg) as [[v|e] pg']; cbn; [split; reflexivity|].
  destruct (interpreters !! 0%nat); cbn; eauto.
Qed.

(** Of the interpreters given to the decorator only the first is ever
    consulted; the others make no difference. *)
Lemma only_first_interpreter {Args R : Type}
    (first : @ErrorInterpreter Page ClickOptions ScreenshotOptions Args)
    (others : list (ErrorInterpreter Args))
    (key : string) (f : Handle -> Args -> Async Page JsError R)
    (calltimeStack : string) (this : Handle) (args : Args) (pg : Page) :
  wrapDescriptiveError (first :: others) key f calltimeStack this args pg
  = wrapDescriptiveError [first] key f calltimeStack this args pg.
Proof. reflexivity. Qed.

(** X8: [click] settles as the underlying click does and leaves the
    page it leaves; when it rejects, what it throws is a documented
    error under the call-time stack, never the error of the
    underlying click itself nor a TypeError. *)
Theorem click_never_raw (calltimeStack : string) (this : Handle)
    (options : option ClickOptions) (pg : Page) :
  match p_click (element this) options pg with
  | (Resolved v, pg') => click calltimeStack this options pg = (Resolved v, pg')
  | (Rejected e, pg') =>
      exists d, click calltimeStack this options pg
                = (Rejected (Documented d (assigned calltimeStack)), pg')
  end.
Proof.
  unfold click, wrapDescriptiveError, tryCatch.
  destruct (p_click (element this) options pg) as [[v|e] pg']; cbn; eauto.
Qed.

(** X9: [clear] does nothing to an element that is neither a SELECT
    nor an INPUT, a TEXTAREA for one: it resolves and the page is as
    it was. *)
Theorem clear_other_tags (calltimeStack : string) (this : Handle) (pg : Page)
    (t : option string) :
  tagName this pg = Resolved t ->
  t <> Some "SELECT" -> t <> Some "INPUT" ->
  clear calltimeStack this tt pg = (Resolved tt, pg).
Proof.
  intros T S I. unfold clear.
  apply wrapDescriptiveError_resolved.
  unfold await, observe. rewrite T.
  destruct (equalsString t "SELECT") eqn:ES.
  { apply equalsString_true in ES. contradiction. }
  destruct (equalsString t "INPUT") eqn:EI.
  { apply equalsString_true in EI. contradiction. }
  reflexivity.
Qed.

(** X10: on a SELECT [clear] resets the selected index and on an INPUT
    it empties the value; when that evaluation resolves, [clear]
    resolves and leaves the page the evaluation left. *)
Theorem clear_select_input (calltimeStack : string) (this : Handle)
    (pg pg' : Page) (v : option string) :
  (tagName this pg = Resolved (Some "SELECT") ->
   p_evaluate (element this) resetSelectedIndex pg = (Resolved v, pg') ->
   clear calltimeStack this tt pg = (Resolved tt, pg'))
  /\ (tagName this pg = Resolved (Some "INPUT") ->
      p_evaluate (element this) clearValue pg = (Resolved v, pg') ->
      clear calltimeStack this tt pg = (Resolved tt, pg')).
Proof.
  split; intros T E; unfold clear; apply wrapDescriptiveError_resolved;
    unfold await, observe; rewrite T; cbn; rewrite E; reflexivity.
Qed.

Variable Key_values : list string.

Lemma sendEach_app (handle : PElementHandle Page ClickOptions ScreenshotOptions)
    (keys more : list string) (pg : Page) :
  sendEach Key_values handle (keys ++ more) pg
  = await (sendEach Key_values handle keys)
          (fun _ => sendEach Key_values handle more) pg.
Proof.
  revert pg. induction keys as [|key keys IH]; intros pg; [reflexivity|].
  cbn [app sendEach]. unfold await.
  destruct ((if isKey Key_values key then p_press handle key
             else p_type handle key) pg) as [[[]|e] pg1]; [|reflexivity].
  rewrite IH. reflexivity.
Qed.

(** X11: keys are sent in sequence: once [sendKeys] has resolved for
    some keys, sending those keys followed by more is sending the
    further keys to the page the first ones left. *)
Theorem sendKeys_app (calltimeStack : string) (this : Handle)
    (keys more : list string) (pg pg1 : Page) :
  sendKeys Key_values calltimeStack this keys pg = (Resolved tt, pg1) ->
  sendKeys Key_values calltimeStack this (keys ++ more) pg
  = sendKeys Key_values calltimeStack this more pg1.
Proof.
  intros E. unfold sendKeys in E.
  apply wrapDescriptiveError_resolved_inv in E.
  unfold sendKeys, wrapDescriptiveError, tryCatch.
  destruct (asElement (element this)) as [handle|].
  - rewrite sendEach_app. unfold await. rewrite E. reflexivity.
  - unfold resolve in *. injection E as <-. reflexivity.
Qed.

(** X12: each key goes to [press] when it is a value of [Key] and to
    [type] otherwise, and the first key that fails ends the call: the
    keys after it are not sent, and the page is the one the failed key
    left. *)
Theorem sendKeys_first_key (calltimeStack : string) (this : Handle)
    (key : string) (rest : list string) (pg : Page) :
  p_isElement (element this) = true ->
  match (if isKey Key_values key then p_press (element this) key
         else p_type (element this) key) pg with
  | (Resolved _, pg') =>
      sendKeys Key_values calltimeStack this (key :: rest) pg
      = sendKeys Key_values calltimeStack this rest pg'
  | (Rejected _, pg') =>
      sendKeys Key_values calltimeStack this (key :: rest) pg
      = (Rejected (Raw (new_TypeError "errorInterpreters[0] is not a function")),
         pg')
  end.
Proof.
  intros El. unfold sendKeys, wrapDescriptiveError, tryCatch, asElement.
  rewrite El. cbn [sendEach]. unfold await.
  destruct ((if isKey Key_values key then p_press (element this) key
             else p_type (element this) key) pg) as [[[]|e] pg']; reflexivity.
Qed.

(** X13: on a handle that is no element, [sendKeys] and [type] resolve
    without acting on the page, [getAttribute] resolves to [null]
    without evaluating anything, and so [isEnabled] resolves to
    [true]. *)
Theorem not_an_element (calltimeStack : string) (this : Handle)
    (keys : list string) (text key : string) (pg : Page) :
  p_isElement (element this) = false ->
  sendKeys Key_values calltimeStack this keys pg = (Resolved tt, pg)
  /\ type calltimeStack this text pg = (Resolved tt, pg)
  /\ getAttribute this key pg = (Resolved None, pg)
  /\ isEnabled this pg = (Resolved true, pg).
Proof.
  intros El.
  unfold sendKeys, type, isEnabled, getAttribute, wrapDescriptiveError,
    tryCatch, await, asElement.
  rewrite El. repeat split; reflexivity.
Qed.

(** X14: a handle that was never bound to a browser takes no
    screenshot: [takeScreenshot] rejects and the page is as it was. *)
Theorem takeScreenshot_unbound (calltimeStack : string) (this : Handle)
    (options : option ScreenshotOptions) (pg : Page) :
  screenshotSaver this = None ->
  takeScreenshot calltimeStack this options pg
  = (Rejected (Raw (new_TypeError "errorInterpreters[0] is not a function")),
     pg).
Proof.
  intros S. unfold takeScreenshot, wrapDescriptiveError, tryCatch.
  rewrite S. reflexivity.
Qed.

(** X15: when the bounding box resolves to a box, [isDisplayed]
    resolves to [true], [size] to the width and height of the box and
    [location] to its corner; when it rejects, all three reject with
    its error. *)
Theorem boundingBox_present (this : Handle) (pg : Page) :
  (forall box, p_boundingBox (element this) pg = Resolved (Some box) ->
     isDisplayed this pg = Resolved true
     /\ size this pg = Resolved (mkSize (width box) (height box))
     /\ location this pg = Resolved (mkLocation (x box) (y box)))
  /\ (forall e, p_boundingBox (element this) pg = Rejected e ->
        isDisplayed this pg = Rejected e
        /\ size this pg = Rejected e
        /\ location this pg = Rejected e).
Proof.
  split; intros b E; unfold isDisplayed, size, location, awaitQ; rewrite E;
    repeat split; reflexivity.
Qed.

Lemma append_assoc (a b c : string) : (a ++ b) ++ c = a ++ (b ++ c).
Proof.
  induction a as [|ch a IH]; [reflexivity|].
  rewrite !append_cons, IH. reflexivity.
Qed.


End Decorated.

(** *** The theorems at sample elements *)

Lemma clear_other_tags_witness :
  let h := sampleHandle (Some "TEXTAREA") None None in
  clear "at call time" h tt 0%nat = (Resolved tt, 0%nat).
Proof.
  intros h.
  apply (clear_other_tags "at call time" h 0%nat (Some "TEXTAREA") eq_refl);
    discriminate.
Defined.

Lemma clear_select_input_witness :
  let h := sampleHandle (Some "SELECT") None None in
  clear "at call time" h tt 0%nat = (Resolved tt, 1%nat).
Proof.
  intros h.
  apply (proj1 (clear_select_input "at call time" h 0%nat 1%nat None));
    reflexivity.
Defined.

Lemma sendKeys_app_witness :
  let h := sampleHandle (Some "INPUT") None None in
  sendKeys ["Enter"] "at call time" h (["a"; "Enter"] ++ ["b"]) 0%nat
  = sendKeys ["Enter"] "at call time" h ["b"] 2%nat.
Proof.
  intros h.
  apply (sendKeys_app ["Enter"] "at call time" h ["a"; "Enter"] ["b"]
           0%nat 2%nat).
  reflexivity.
Defined.

Lemma sendKeys_first_key_witness :
  let h := new_ElementHandle (stickyKeyElement "Enter") in
  sendKeys ["Enter"] "at call time" h ["Enter"; "a"; "b"] 0%nat
  = (Rejected (Raw (new_TypeError "errorInterpreters[0] is not a function")),
     1%nat).
Proof.
  intros h.
  exact (sendKeys_first_key ["Enter"] "at call time" h "Enter" ["a"; "b"]
           0%nat eq_refl).
Defined.

Lemma not_an_element_witness :
  let h := new_ElementHandle sampleValue in
  sendKeys ["Enter"] "at call time" h ["a"; "Enter"] 0%nat = (Resolved tt, 0%nat)
  /\ type "at call time" h "text" 0%nat = (Resolved tt, 0%nat)
  /\ getAttribute h "disabled" 0%nat = (Resolved None, 0%nat)
  /\ isEnabled h 0%nat = (Resolved true, 0%nat).
Proof.
  intros h.
  apply (not_an_element ["Enter"] "at call time" h ["a"; "Enter"] "text"
           "disabled" 0%nat).
  reflexivity.
Defined.

Lemma takeScreenshot_unbound_witness :
  let h := sampleHandle (Some "DIV") None None in
  takeScreenshot "at call time" h None 0%nat
  = (Rejected (Raw (new_TypeError "errorInterpreters[0] is not a function")),
     0%nat).
Proof.
  intros h. apply (takeScreenshot_unbound "at call time" h None 0%nat).
  reflexivity.
Defined.

Lemma boundingBox_present_witness :
  let box := mkBoundingBox 8 16 640 480 in
  let h := sampleHandle (Some "DIV") (Some box) None in
  isDisplayed h 0%nat = Resolved true
  /\ size h 0%nat = Resolved (mkSize 640 480)
  /\ location h 0%nat = Resolved (mkLocation 8 16).
Proof.
  intros box h.
  apply (proj1 (boundingBox_present h 0%nat) box). reflexivity.
Defined.


End ElementHandleEdges.

(* ===================================================================== *)
(** ** Further properties of [Parser] *)
(* ===================================================================== *)

Module ParserEdges.
Import JsString Parser JsStringProofs ParserProofs.

(** *** Module names *)

Lemma endsWith_app (suffix s : string) :
  endsWith suffix s = true <-> exists before, s = before ++ suffix.
Proof.
  induction s as [|c s IH]; cbn [endsWith].
  - destruct (String.eqb_spec "" suffix) as [<-|N].
    + split; [intros _; exists ""; reflexivity | reflexivity].
    + split; [discriminate|]. intros [before E].
      destruct before; [|discriminate E]. rewrite append_nil in E.
      congruence.
  - destruct (String.eqb_spec (String c s) suffix) as [<-|N].
    + split; [intros _; exists ""; reflexivity | reflexivity].
    + rewrite IH. split; intros [before E].
      * exists (String c before). rewrite append_cons. congruence.
      * destruct before as [|d before].
        -- rewrite append_nil in E. congruence.
        -- rewrite append_cons in E. exists before. congruence.
Qed.

Lemma length_append (a b : string) :
  String.length (a ++ b) = (String.length a + String.length b)%nat.
Proof.
  induction a as [|c a IH]; [reflexivity|].
  rewrite append_cons. cbn. rewrite IH. reflexivity.
Qed.

Lemma substring_append (s rest : string) :
  String.substring 0 (String.length s) (s ++ rest) = s.
Proof.
  induction s as [|c s IH].
  - rewrite append_nil. destruct rest; reflexivity.
  - rewrite append_cons. cbn. rewrite IH. reflexivity.
Qed.

Lemma stripQuotes_between (s : string) :
  stripQuotes (doubleQuote ++ s ++ doubleQuote) = s.
Proof.
  unfold stripQuotes, startsWith.
  assert (P : String.prefix doubleQuote (doubleQuote ++ s ++ doubleQuote) = true)
    by (apply prefix_app; eauto).
  assert (E : endsWith doubleQuote (doubleQuote ++ s ++ doubleQuote) = true).
  { apply endsWith_app. exists (doubleQuote ++ s).
    symmetry. apply ElementHandleEdges.append_assoc. }
  rewrite P, E. cbn [andb]. unfold slice.
  rewrite !length_append. unfold doubleQuote at 1 2 3. rewrite append_cons, append_nil.
  cbn [String.length String.substring].
  match goal with
  | |- String.substring 0 ?n _ = _ =>
      replace n with (String.length s) by lia
  end.
  apply substring_append.
Qed.

(** X17: [stripQuotes] takes the quotes off a name that is written
    between double quotes, whatever is between them; the lone double
    quote, which both starts and ends with a quote, it empties; and any
    other name it leaves as it is: a name that it changes was written
    between double quotes, or was the lone double quote. [forMod] keeps
    the parser of the context and takes the name without its quotes. *)
Theorem stripQuotes_only_quoted :
  (forall s, stripQuotes (doubleQuote ++ s ++ doubleQuote) = s)
  /\ stripQuotes doubleQuote = EmptyString
  /\ (forall name,
        name <> doubleQuote ->
        (forall s, name <> doubleQuote ++ s ++ doubleQuote) ->
        stripQuotes name = name)
  /\ (forall name,
        stripQuotes name = name
        \/ (name = doubleQuote /\ stripQuotes name = EmptyString)
        \/ name = doubleQuote ++ stripQuotes name ++ doubleQuote)
  /\ (forall (DocSource : Type) (ctx : ModContext DocSource) s,
        forMod ctx (doubleQuote ++ s ++ doubleQuote) = mkContext s (docSource ctx)).
Proof.
  assert (Cases : forall name,
             stripQuotes name = name
             \/ (name = doubleQuote /\ stripQuotes name = EmptyString)
             \/ name = doubleQuote ++ stripQuotes name ++ doubleQuote);
    [|split; [exact stripQuotes_between|]; split; [reflexivity|]; split;
      [|split; [exact Cases|]]].
  - intros name.
    destruct (startsWith doubleQuote name && endsWith doubleQuote name) eqn:T.
    2: { left. unfold stripQuotes. rewrite T. reflexivity. }
    right. apply andb_prop in T as [P E].
    apply prefix_app in P as [rest ->].
    unfold doubleQuote in E at 2. rewrite append_cons, append_nil in E.
    cbn [endsWith] in E.
    destruct (String.eqb_spec (String (ascii_of_nat 34) rest) doubleQuote)
      as [Q|N].
    + left. injection Q as ->. split; reflexivity.
    + right. apply endsWith_app in E as [s ->].
      rewrite stripQuotes_between. reflexivity.
  - intros name N1 N2. destruct (Cases name) as [E|[[E _]|E]].
    + exact E.
    + contradiction.
    + destruct (N2 _ E).
  - intros DocSource ctx s. unfold forMod. rewrite stripQuotes_between.
    reflexivity.
Qed.

(** *** What visits and walks write *)

Section Writes.
Context {TypeObject : Type} `{!Imports TypeObject}.
Abbreviation Node := (NodeLike TypeObject).

Lemma deref_callOn (doc other : nat) (c : DocumentCall) (p : Parser) :
  deref (callOn doc c p) other
  = if decide (doc = other) then (deref p doc ++ [c])%list else deref p other.
Proof.
  unfold deref at 1. cbn [callOn objects]. rewrite lookup_insert.
  destruct (decide (doc = other)); reflexivity.
Qed.

Lemma appendsOnly_refl (p : Parser) : appendsOnly p p.
Proof. repeat split; reflexivity. Qed.

Lemma appendsOnly_trans (p q r : Parser) :
  appendsOnly p q -> appendsOnly q r -> appendsOnly p r.
Proof.
  intros (D & I & R & O & C) (D' & I' & R' & O' & C').
  repeat split; try congruence.
  - intros doc. etransitivity; [apply O | apply O'].
  - etransitivity; [apply C | apply C'].
Qed.

Lemma writesOnly_refl (doc : option nat) (p : Parser) : writesOnly doc p p.
Proof. split; [apply appendsOnly_refl | reflexivity]. Qed.

Lemma writesOnly_trans (doc : option nat) (p q r : Parser) :
  writesOnly doc p q -> writesOnly doc q r -> writesOnly doc p r.
Proof.
  intros [A F] [A' F']. split; [eapply appendsOnly_trans; eassumption|].
  intros other N. rewrite F', F by exact N. reflexivity.
Qed.

Lemma callOn_writesOnly (doc : nat) (c : DocumentCall) (p : Parser) :
  writesOnly (Some doc) p (callOn doc c p).
Proof.
  split.
  - repeat split; try reflexivity. intros other. rewrite deref_callOn.
    destruct (decide (doc = other)) as [->|]; [|reflexivity].
    apply prefix_app_r. reflexivity.
  - intros other N. cbn [callOn objects]. apply lookup_insert_ne. congruence.
Qed.

Lemma console_log_writesOnly (doc : option nat) (line : string) (p : Parser) :
  writesOnly doc p (console_log line p).
Proof.
  split; [|reflexivity]. repeat split; try reflexivity.
  cbn [console_log console]. apply prefix_app_r. reflexivity.
Qed.

Lemma commentIf_writesOnly (doc : nat) (s : option string) (p : Parser) :
  writesOnly (Some doc) p (commentIf doc s p).
Proof.
  unfold commentIf. destruct (truthy s);
    [apply callOn_writesOnly | apply writesOnly_refl].
Qed.

Lemma writeComment_writesOnly (doc : nat) (c : option CommentObject)
    (p : Parser) :
  writesOnly (Some doc) p (writeComment doc c p).
Proof.
  unfold writeComment.
  destruct c as [c|];
    (eapply writesOnly_trans; [apply commentIf_writesOnly|]);
    apply commentIf_writesOnly.
Qed.

Lemma visitClassComment_writesOnly (c : CommentObject) (doc : nat)
    (p : Parser) :
  writesOnly (Some doc) p (visitClassComment c doc p).
Proof.
  unfold visitClassComment. destruct (tags c);
    [apply callOn_writesOnly | apply writesOnly_refl].
Qed.

Lemma visitClass_writesOnly (node : Node) (doc : option nat) (p : Parser) :
  writesOnly doc p (visitClass node doc p).
Proof.
  unfold visitClass. destruct doc as [doc|]; [|apply console_log_writesOnly].
  eapply writesOnly_trans; [apply console_log_writesOnly|].
  eapply writesOnly_trans; [apply callOn_writesOnly|].
  destruct (comment node) as [c|].
  - eapply writesOnly_trans; [apply writeComment_writesOnly|].
    apply visitClassComment_writesOnly.
  - apply writeComment_writesOnly.
Qed.

Lemma visitCallSignature_writesOnly (sig : CallSignatureType TypeObject)
    (doc : nat) (p : Parser) :
  writesOnly (Some doc) p (visitCallSignature sig doc p).
Proof.
  unfold visitCallSignature. destruct (parameters sig);
    [apply callOn_writesOnly | apply writesOnly_refl].
Qed.

Lemma visitMethod_writesOnly (node : Node) (doc : option nat) (p : Parser) :
  writesOnly doc p (visitMethod node doc p).
Proof.
  unfold visitMethod.
  destruct (isMethodReflection node); [|apply writesOnly_refl].
  destruct doc as [doc|]; [|apply writesOnly_refl].
  set (q := match implementationOf node with
            | Some _ => _
            | None => p
            end).
  assert (Q : writesOnly (Some doc) p q).
  { subst q. destruct (implementationOf node);
      [apply console_log_writesOnly | apply writesOnly_refl]. }
  destruct (isNodeInternal node); [exact Q|].
  destruct (isCallableNode node); [|exact Q].
  clearbody q. revert q Q.
  induction (signatures node) as [|sig sigs IH]; intros q Q; [exact Q|].
  cbn. apply IH.
  eapply writesOnly_trans; [exact Q | apply visitCallSignature_writesOnly].
Qed.

Lemma visit_writesOnly (node : Node) (doc : option nat) (p : Parser) :
  writesOnly doc p (state (visit node doc p)).
Proof.
  unfold visit. destruct (truthy (kindString node)) as [kind|];
    [|apply writesOnly_refl].
  destruct (visitors !! kind) as [visitor|] eqn:L.
  2: { destruct (Object_prototype !! kind) as [[]|];
         first [apply writesOnly_refl | apply console_log_writesOnly]. }
  cbn [state]. apply visitors_lookup in L.
  repeat (apply elem_of_cons in L as [->|L];
          [first [ apply visitClass_writesOnly
                 | apply visitMethod_writesOnly
                 | apply console_log_writesOnly
                 | apply writesOnly_refl ] |]).
  apply elem_of_nil in L. destruct L.
Qed.

(** X18: a visit writes to the document it is given and to no other:
    without a document no document changes, with one every other
    document is as it was, and the calls a document had are still
    there, in front of any new ones. The documents the parser holds,
    its index and its reference map are never changed. This holds of
    the parser a visit leaves, whether it returns or throws. *)
Theorem visit_writes_its_document (node : Node) (doc : option nat)
    (p : Parser) :
  (doc = None -> objects (state (visit node doc p)) = objects p)
  /\ (forall other, doc <> Some other ->
        objects (state (visit node doc p)) !! other = objects p !! other)
  /\ (forall d, deref p d `prefix_of` deref (state (visit node doc p)) d)
  /\ documents (state (visit node doc p)) = documents p
  /\ index (state (visit node doc p)) = index p
  /\ referenceMap (state (visit node doc p)) = referenceMap p.
Proof.
  destruct (visit_writesOnly node doc p) as [(D & I & R & O & _) F].
  repeat split; try assumption.
  intros ->. apply map_eq. intros other. apply F. discriminate.
Qed.

Lemma visitAll_appendsOnly (visits : list (Node * option nat)) (p : Parser) :
  appendsOnly p (state (visitAll visits p)).
Proof.
  revert p. induction visits as [|v visits IH]; intros p;
    [apply appendsOnly_refl|].
  rewrite visitAll_cons.
  destruct (visit_writesOnly v.1 v.2 p) as [A _].
  destruct (visit v.1 v.2 p) as [q|m q]; cbn [andThen state] in *;
    [|exact A].
  eapply appendsOnly_trans; [exact A | apply IH].
Qed.

(** X19: a walk only adds: the parser it leaves, whether it returns
    or throws, holds the same documents under the same index, its
    reference map is the same, every document has the calls it had
    followed by the new ones, and the console has the lines it had
    followed by the new ones. *)
Theorem walk_appends_only (node : Node) (doc : option nat) (p : Parser) :
  appendsOnly p (state (walk node doc p)).
Proof. rewrite walk_visitAll. apply visitAll_appendsOnly. Qed.

Lemma visitAll_other (visits : list (Node * option nat)) (other : nat) :
  Forall (fun v => v.2 <> Some other) visits ->
  forall p, objects (state (visitAll visits p)) !! other = objects p !! other.
Proof.
  induction 1 as [|v visits N _ IH]; intros p; [reflexivity|].
  rewrite visitAll_cons.
  destruct (visit_writesOnly v.1 v.2 p) as [_ F]. specialize (F other N).
  destruct (visit v.1 v.2 p) as [q|m q]; cbn [andThen state] in *;
    [|exact F].
  rewrite IH. exact F.
Qed.

Lemma targetDocument_cases (p : Parser) (node : Node) (doc : option nat) :
  targetDocument p node doc = doc
  \/ exists d, targetDocument p node doc = Some d /\ holds p d.
Proof.
  unfold targetDocument, documentForName, holds.
  destruct (isClassReflection node); [|left; reflexivity].
  destruct (indexExports (index p) !! name node) as [key|];
    [|left; reflexivity].
  destruct (documents p !! key) as [d|] eqn:D; [|left; reflexivity].
  right. eauto.
Qed.

Lemma visitOrder_documents (p : Parser) (node : Node) :
  forall doc,
    Forall (fun v => v.2 = doc \/ exists d, v.2 = Some d /\ holds p d)
           (visitOrder p node doc).
Proof.
  induction node as [n k cs c s i IH] using NodeLike_ind.
  intros doc. cbn [visitOrder].
  pose proof (targetDocument_cases p (mkNode n k cs c s i) doc) as T.
  revert T. generalize (targetDocument p (mkNode n k cs c s i) doc).
  intros doc' T. constructor; [exact T|].
  destruct cs as [l|]; [|constructor].
  specialize (IH l eq_refl).
  induction IH as [|child l Hchild _ IHl]; cbn [flat_map]; [constructor|].
  apply Forall_app. split; [|exact IHl].
  eapply Forall_impl; [apply Hchild|].
  intros v [E|H]; [|right; exact H].
  destruct T as [->|T]; [left; exact E|].
  right. rewrite E. exact T.
Qed.

(** X20: a walk writes only to the document it is given and to the
    documents the parser holds: any other document is as it was,
    whether the walk returns or throws. *)
Theorem walk_writes_held_documents (node : Node) (doc : option nat)
    (p : Parser) (other : nat) :
  doc <> Some other -> ~ holds p other ->
  objects (state (walk node doc p)) !! other = objects p !! other.
Proof.
  intros N H. rewrite walk_visitAll. apply visitAll_other.
  eapply Forall_impl; [apply visitOrder_documents|].
  intros v [E|[d [E Hd]]]; rewrite E; [exact N|].
  intros [= ->]. contradiction.
Qed.

(** X21: the document goes over at class reflections only: in a tree
    without any, every node is visited with the document the walk
    started with. *)
Theorem walk_without_classes (p : Parser) (node : Node) (doc : option nat) :
  Forall (fun n => isClassReflection n = false) (preorder node) ->
  Forall (fun v => v.2 = doc) (visitOrder p node doc).
Proof.
  revert doc. induction node as [n k cs c s i IH] using NodeLike_ind.
  intros doc F. cbn [visitOrder preorder] in *.
  apply Forall_cons in F as [C F].
  assert (T : targetDocument p (mkNode n k cs c s i) doc = doc).
  { unfold targetDocument. rewrite C. reflexivity. }
  rewrite T. constructor; [reflexivity|]. clear C T.
  destruct cs as [l|]; [|constructor].
  specialize (IH l eq_refl). revert F.
  induction IH as [|child l Hchild _ IHl]; cbn [flat_map]; intros F;
    [constructor|].
  apply Forall_app in F as [Fc Fl].
  apply Forall_app. split; [apply Hchild; exact Fc | apply IHl; exact Fl].
Qed.

(** *** What the visitors write *)

Lemma deref_console_log (line : string) (p : Parser) (d : nat) :
  deref (console_log line p) d = deref p d.
Proof. reflexivity. Qed.

Lemma deref_callOn_same (d : nat) (c : DocumentCall) (p : Parser) :
  deref (callOn d c p) d = (deref p d ++ [c])%list.
Proof. rewrite deref_callOn. destruct (decide (d = d)); congruence. Qed.

(** The comment calls for a text that may be absent or empty. *)
Lemma deref_commentIf (d : nat) (s : option string) (p : Parser) :
  deref (commentIf d s p) d
  = (deref p d ++ (call_comment <$> (fixReferences <$> omap truthy [s])))%list.
Proof.
  unfold commentIf. cbn. destruct (truthy s); cbn.
  - apply deref_callOn_same.
  - rewrite app_nil_r. reflexivity.
Qed.

(** X22: [visitClass] with a document appends to it, in this order,
    one section with the name of the node, one comment for the short
    text and one for the text of the node's comment, each only when it
    is there and not empty, and a front matter when the comment has
    tags, even an empty list of them. Without a document it writes one
    line to the console and nothing else. *)
Theorem visitClass_calls (node : Node) (d : nat) (p : Parser) :
  deref (visitClass node (Some d) p) d
  = (deref p d
     ++ call_section (name node)
        :: match comment node with
           | None => []
           | Some c =>
               (call_comment
                  <$> (fixReferences <$> omap truthy [shortText c; text c]))
               ++ match tags c with
                  | Some ts => [call_frontmatter (foldl addTag ∅ ts)]
                  | None => []
                  end
           end)%list
  /\ visitClass node None p
     = console_log (info ("visit Class: " ++ name node)) p.
Proof.
  split; [|reflexivity]. unfold visitClass.
  destruct (comment node) as [c|].
  - unfold visitClassComment, writeComment.
    assert (W : forall q,
               deref (commentIf d (text c) (commentIf d (shortText c) q)) d
               = (deref q d
                  ++ (call_comment
                        <$> (fixReferences <$> omap truthy [shortText c; text c])))%list).
    { intros q. rewrite !deref_commentIf. cbn.
      destruct (truthy (shortText c)), (truthy (text c)); cbn;
        rewrite <- ?app_assoc, ?app_nil_r; reflexivity. }
    destruct (tags c) as [ts|].
    + rewrite deref_callOn_same, W, deref_callOn_same, deref_console_log.
      rewrite <- !app_assoc. reflexivity.
    + rewrite W, deref_callOn_same, deref_console_log.
      rewrite app_nil_r, <- !app_assoc. reflexivity.
  - unfold writeComment. rewrite !deref_commentIf. cbn.
    rewrite !app_nil_r, deref_callOn_same, deref_console_log. reflexivity.
Qed.

(** The call that documents a signature, if it has parameters. *)
Lemma deref_visitCallSignatures (d : nat)
    (sigs : list (CallSignatureType TypeObject)) (p : Parser) :
  deref (foldl (fun p sig => visitCallSignature sig d p) p sigs) d
  = (deref p d
     ++ omap (fun sig =>
                (fun ps => call_callSignature (documentParameter <$> ps))
                  <$> parameters sig) sigs)%list.
Proof.
  revert p. induction sigs as [|sig sigs IH]; intros p.
  - cbn. rewrite app_nil_r. reflexivity.
  - cbn [foldl]. rewrite IH. unfold visitCallSignature.
    destruct (parameters sig) as [ps|] eqn:P; cbn; rewrite P; cbn;
      [|reflexivity].
    rewrite deref_callOn_same, <- app_assoc. reflexivity.
Qed.

(** X23: for a method reflection that is not internal and is
    callable, [visitMethod] with a document appends to it one call
    signature for each signature of the node that has parameters, in
    order, with the parameters documented one by one; a signature
    without parameters is skipped. A node that is not a method
    reflection changes nothing, and without a document nothing is
    changed either. *)
Theorem visitMethod_calls (node : Node) (d : nat) (p : Parser) :
  (isMethodReflection node = true -> isNodeInternal node = false ->
   isCallableNode node = true ->
   deref (visitMethod node (Some d) p) d
   = (deref p d
      ++ omap (fun sig =>
                 (fun ps => call_callSignature (documentParameter <$> ps))
                   <$> parameters sig) (signatures node))%list)
  /\ (isMethodReflection node = false -> visitMethod node (Some d) p = p)
  /\ visitMethod node None p = p.
Proof.
  unfold visitMethod. repeat split.
  - intros -> -> ->. rewrite deref_visitCallSignatures.
    destruct (implementationOf node); reflexivity.
  - intros ->. reflexivity.
  - destruct (isMethodReflection node); reflexivity.
Qed.

(** X7: the description of a parameter is the short text and the
    text of its comment, each passed through [fixReferences], with one
    line break between them; a part that is absent or empty is left
    out together with the line break, and with no part left the
    description is empty. A parameter is optional only when its flags
    say so, and a reference exactly when the [type] of its type is
    'reference'. *)
Theorem documentParameter_parts
    (param : ParameterReflectionObject TypeObject) :
  doc_desc (documentParameter param)
  = match param_comment param with
    | None => ""
    | Some c =>
        match truthy (shortText c), truthy (text c) with
        | Some short, Some long =>
            fixReferences short ++ String (ascii_of_nat 10) ""
            ++ fixReferences long
        | Some short, None => fixReferences short
        | None, Some long => fixReferences long
        | None, None => ""
        end
    end
  /\ doc_isOptional (documentParameter param)
     = match isOptional (param_flags param) with
       | Some b => b
       | None => false
       end
  /\ (doc_isReference (documentParameter param) = true
      <-> type_of (param_type param) = "reference")
  /\ doc_name (documentParameter param) = param_name param
  /\ doc_defaultValue (documentParameter param) = defaultValue param.
Proof.
  unfold documentParameter. cbn [doc_desc doc_isOptional doc_isReference
    doc_name doc_defaultValue]. repeat split.
  - unfold description. destruct (param_comment param) as [c|]; [|reflexivity].
    cbn. destruct (truthy (shortText c)), (truthy (text c)); reflexivity.
  - apply String.eqb_eq.
  - apply String.eqb_eq.
Qed.

(** X25: a node of kind Variable, Property, 'External module',
    'Type alias' or 'Object literal', or with an empty kind, is visited
    without any effect, not even a line on the console; a node of kind
    Function only gets its name written to the console, with or
    without a document. In both cases the visit returns. *)
Theorem visit_plain_kinds (node : Node) (doc : option nat) (p : Parser) :
  (forall kind,
      kindString node = Some kind ->
      kind ∈ [ "Variable"; "Property"; "External module"; "Type alias";
               "Object literal"; "" ] ->
      visit node doc p = Normal p)
  /\ (kindString node = Some "Function" ->
      visit node doc p
      = Normal (console_log (info ("Function " ++ name node)) p)).
Proof.
  split.
  - intros kind K In. unfold visit. rewrite K.
    repeat (apply elem_of_cons in In as [->|In]; [reflexivity|]).
    apply elem_of_nil in In. destruct In.
  - intros K. unfold visit. rewrite K. reflexivity.
Qed.

(** *** Parsing *)

Lemma newDocument_objects (p : Parser) (file : string) (r : nat) :
  r ∈ dom (objects p) ->
  r ∈ dom (objects (newDocument p file))
  /\ objects (newDocument p file) !! r = objects p !! r.
Proof.
  intros In. cbn [newDocument objects]. split.
  - rewrite dom_insert_L. apply elem_of_union_r, In.
  - apply lookup_insert_ne. intros E. rewrite <- E in In.
    exact (is_fresh _ In).
Qed.

(** The documents made for a list of files, each named once. *)
Lemma foldl_newDocument (files : list string) :
  NoDup files ->
  forall p,
    index (foldl newDocument p files) = index p
    /\ (forall r, r ∈ dom (objects p) ->
          r ∈ dom (objects (foldl newDocument p files))
          /\ objects (foldl newDocument p files) !! r = objects p !! r)
    /\ (forall f, f ∉ files ->
          documents (foldl newDocument p files) !! f = documents p !! f)
    /\ (forall f, f ∈ files ->
          exists r, documents (foldl newDocument p files) !! f = Some r
                    /\ (r ∉ dom (objects p))
                    /\ objects (foldl newDocument p files) !! r = Some []).
Proof.
  induction 1 as [|file files Nin ND IH]; intros p.
  - cbn. repeat split; try reflexivity; try assumption.
    intros f In. apply elem_of_nil in In. destruct In.
  - cbn [foldl]. destruct (IH (newDocument p file)) as (I & O & D & N).
    pose proof (is_fresh (dom (objects p))) as Fresh.
    assert (New : fresh (dom (objects p)) ∈ dom (objects (newDocument p file))).
    { cbn [newDocument objects]. rewrite dom_insert_L.
      apply elem_of_union_l, elem_of_singleton. reflexivity. }
    split; [exact I|]. split; [|split].
    + intros r In. destruct (newDocument_objects p file r In) as [In' E'].
      destruct (O r In') as [In'' E'']. split; [exact In''|].
      rewrite E''. exact E'.
    + intros f Nf. apply not_elem_of_cons in Nf as [Ne Nf].
      rewrite (D f Nf). cbn [newDocument documents].
      apply lookup_insert_ne. congruence.
    + intros f In. apply elem_of_cons in In as [->|In].
      * exists (fresh (dom (objects p))). split; [|split; [exact Fresh|]].
        -- rewrite (D file Nin). cbn [newDocument documents].
           apply lookup_insert_eq.
        -- rewrite (proj2 (O _ New)). cbn [newDocument objects].
           apply lookup_insert_eq.
      * destruct (N f In) as (r & Dr & Nr & Or).
        exists r. split; [exact Dr|]. split; [|exact Or].
        intros In'. apply Nr. apply newDocument_objects, In'.
Qed.

Lemma foldl_newDocument_inj (files : list string) :
  NoDup files ->
  forall p f1 f2 r,
    f1 ∈ files -> f2 ∈ files ->
    documents (foldl newDocument p files) !! f1 = Some r ->
    documents (foldl newDocument p files) !! f2 = Some r ->
    f1 = f2.
Proof.
  induction 1 as [|file files Nin ND IH]; intros p f1 f2 r In1 In2 D1 D2.
  - apply elem_of_nil in In1. destruct In1.
  - cbn [foldl] in *.
    destruct (foldl_newDocument files ND (newDocument p file))
      as (_ & _ & D & N).
    assert (Head : documents (foldl newDocument (newDocument p file) files)
                     !! file = Some (fresh (dom (objects p)))).
    { rewrite (D file Nin). cbn [newDocument documents].
      apply lookup_insert_eq. }
    assert (Tail : forall f, f ∈ files ->
              documents (foldl newDocument (newDocument p file) files) !! f
              <> Some (fresh (dom (objects p)))).
    { intros f In E. destruct (N f In) as (r' & Dr & Nr & _).
      apply Nr. rewrite Dr in E. injection E as ->.
      cbn [newDocument objects]. rewrite dom_insert_L.
      apply elem_of_union_l, elem_of_singleton. reflexivity. }
    apply elem_of_cons in In1 as [->|In1], In2 as [->|In2].
    + reflexivity.
    + rewrite Head in D1. injection D1 as <-. destruct (Tail f2 In2 D2).
    + rewrite Head in D2. injection D2 as <-. destruct (Tail f1 In1 D1).
    + eapply IH; eassumption.
Qed.

Lemma exportedFiles_elem (idx : ParseIndex) (name file : string) :
  indexExports idx !! name = Some file -> file ∈ exportedFiles idx.
Proof.
  intros E. unfold exportedFiles. apply elem_of_remove_dups.
  apply list_elem_of_fmap. exists (name, file). split; [reflexivity|].
  apply elem_of_map_to_list, E.
Qed.

(** X26: after [parse], whether its walk returns or throws, every
    name the index exports has a document, one that [parse] made anew,
    and two names have the same document exactly when the index exports
    them to the same file. *)
Theorem parse_documents (inspect : list string -> string) (idx : ParseIndex)
    (typeDoc : Node) (p : Parser) (name1 file1 name2 file2 : string) :
  indexExports idx !! name1 = Some file1 ->
  indexExports idx !! name2 = Some file2 ->
  exists d1 d2,
    documentForName (state (parse inspect idx typeDoc p)) name1 = Some d1
    /\ documentForName (state (parse inspect idx typeDoc p)) name2 = Some d2
    /\ (d1 ∉ dom (objects p))
    /\ (d1 = d2 <-> file1 = file2).
Proof.
  intros E1 E2. unfold parse.
  set (p2 := console_log _ _).
  set (p3 := foldl newDocument p2 (exportedFiles idx)).
  assert (ND : NoDup (exportedFiles idx)) by apply NoDup_remove_dups.
  destruct (foldl_newDocument _ ND p2) as (I & _ & _ & N).
  fold p3 in I, N.
  assert (S : sameIndex (state (walk typeDoc None p3)) p3).
  { rewrite walk_visitAll. apply visitAll_sameIndex. }
  destruct S as [SD SI].
  pose proof (exportedFiles_elem idx name1 file1 E1) as In1.
  pose proof (exportedFiles_elem idx name2 file2 E2) as In2.
  destruct (N file1 In1) as (d1 & D1 & N1 & _).
  destruct (N file2 In2) as (d2 & D2 & _ & _).
  exists d1, d2. unfold documentForName. rewrite SD, SI, I.
  subst p2. cbn [console_log index]. rewrite E1, E2.
  repeat split; try assumption.
  - intros ->. eapply (foldl_newDocument_inj _ ND); eassumption.
  - intros ->. congruence.
Qed.

End Writes.

(** *** The front matter *)

Lemma setProperty_lookup (key value : string) (object : gmap string string)
    (k : string) :
  setProperty key value object !! k
  = if negb (String.eqb k "__proto__") && String.eqb key k then Some value
    else object !! k.
Proof.
  unfold setProperty.
  destruct (String.eqb_spec key "__proto__") as [->|N].
  - destruct (String.eqb_spec k "__proto__") as [->|Nk]; [reflexivity|].
    destruct (String.eqb_spec "__proto__" k) as [<-|_];
      [contradiction | reflexivity].
  - destruct (String.eqb_spec key k) as [<-|Nk].
    + destruct (String.eqb_spec key "__proto__"); [contradiction|].
      apply lookup_insert_eq.
    + rewrite andb_false_r. apply lookup_insert_ne. exact Nk.
Qed.

(** The [meta] object after one tag, property by property. *)
Lemma addTag_lookup (meta : gmap string string) (t : CommentTag)
    (key : string) :
  addTag meta t !! key
  = if writesKey key t then Some (trim (tag_text t)) else meta !! key.
Proof.
  unfold addTag, writesKey.
  destruct (String.eqb_spec (tag t) "class") as [C|C];
    rewrite ?setProperty_lookup;
    destruct (String.eqb key "__proto__"),
             (String.eqb_spec (tag t) key) as [E|E],
             (String.eqb_spec "title" key) as [T|T],
             (String.eqb_spec key "title") as [T'|T'];
    cbn; congruence.
Qed.

Lemma last_cons_cases {A : Type} (x : A) (l : list A) :
  last (x :: l) = match last l with Some y => Some y | None => Some x end.
Proof.
  destruct l as [|y l]; [reflexivity|].
  change (last (x :: y :: l)) with (last (y :: l)).
  destruct (last (y :: l)) eqn:Z; [reflexivity|].
  apply last_None in Z. discriminate Z.
Qed.

Lemma foldl_addTag_lookup (ts : list CommentTag) :
  forall (meta : gmap string string) (key : string),
    foldl addTag meta ts !! key
    = match frontmatterValue key ts with
      | Some v => Some v
      | None => meta !! key
      end.
Proof.
  unfold frontmatterValue.
  induction ts as [|t ts IH]; intros meta key; [reflexivity|].
  cbn [foldl]. rewrite IH, addTag_lookup.
  rewrite filter_cons.
  destruct (decide (writesKey key t = true)) as [W|W].
  - rewrite W, last_cons_cases.
    destruct (last (filter _ ts)); reflexivity.
  - apply not_true_is_false in W. rewrite W. reflexivity.
Qed.

(** X24: in the front matter of a class the value under a key is the
    text, without the white space around it, of the last tag that
    assigns to the key: a tag assigns to the key of its own name, and a
    'class' tag to 'title' as well. A key that no tag assigns to is
    absent, and so is '__proto__', which no assignment reaches. So a
    later tag replaces an earlier one of the same name and leaves the
    tags of other names as they were. *)
Theorem frontmatter_tags (ts : list CommentTag) (key : string) :
  foldl addTag ∅ ts !! key
  = (fun t => trim (tag_text t))
      <$> last (filter
                  (fun t => key <> "__proto__"
                            /\ (tag t = key
                                \/ (key = "title" /\ tag t = "class")))
                  ts)
  /\ foldl addTag ∅ ts !! key = frontmatterValue key ts.
Proof.
  assert (E : foldl addTag ∅ ts !! key = frontmatterValue key ts).
  { rewrite foldl_addTag_lookup, lookup_empty.
    destruct (frontmatterValue key ts); reflexivity. }
  split; [|exact E]. rewrite E. unfold frontmatterValue. do 2 f_equal.
  apply list_filter_iff. intros t. unfold writesKey.
  rewrite andb_true_iff, negb_true_iff, orb_true_iff, andb_true_iff.
  rewrite !String.eqb_eq, String.eqb_neq. reflexivity.
Qed.

(** The front matter of a comment with two 'class' tags around a
    'docPage' tag and a '__proto__' tag: the later class wins, for
    'class' and for 'title', 'docPage' stays, and '__proto__' is no
    key. *)
Example frontmatter_sample :
  let ts := [ mkCommentTag "class" "Browser "; mkCommentTag "docPage" "Browser";
              mkCommentTag "__proto__" "x"; mkCommentTag "class" " Page " ] in
  foldl addTag ∅ ts !! "class" = Some "Page"
  /\ foldl addTag ∅ ts !! "title" = Some "Page"
  /\ foldl addTag ∅ ts !! "docPage" = Some "Browser"
  /\ foldl addTag ∅ ts !! "__proto__" = None
  /\ dom (foldl addTag ∅ ts) = {[ "class"; "title"; "docPage" ]}.
Proof. repeat split; vm_compute; reflexivity. Qed.

(** *** The theorems at the samples *)

Lemma visit_writes_its_document_witness :
  objects (state (visit (H := sampleImports) (leaf "Browser" (Some "Class"))
                    None sampleParser))
  = objects sampleParser.
Proof.
  apply (proj1 (visit_writes_its_document (Imports0 := sampleImports)
                  (leaf "Browser" (Some "Class")) None sampleParser)).
  reflexivity.
Defined.

Lemma walk_writes_held_documents_witness :
  objects (state (walk (H := sampleImports) sampleTree None sampleParser))
    !! 1%nat
  = objects sampleParser !! 1%nat.
Proof.
  apply (walk_writes_held_documents (Imports0 := sampleImports) sampleTree
           None sampleParser 1%nat).
  - discriminate.
  - intros [file H]. unfold sampleParser in H. cbn [documents] in H.
    apply lookup_singleton_Some in H as [_ H]. discriminate H.
Defined.

Lemma walk_without_classes_witness :
  let tree := mkNode "steps" None
                (Some [leaf "step" (Some "Function"); leaf "settings" (Some "Variable")])
                None [] None in
  Forall (fun v => v.2 = Some 0%nat)
         (visitOrder (H := sampleImports) sampleParser tree (Some 0%nat)).
Proof.
  intros tree.
  apply (walk_without_classes (Imports0 := sampleImports) sampleParser tree
           (Some 0%nat)).
  repeat constructor.
Defined.

Lemma visitMethod_calls_witness :
  deref (visitMethod (H := sampleImports) sampleMethod (Some 0%nat) sampleParser)
        0%nat
  = [ call_callSignature
        [ mkParameterDoc "url" "any" false false None "Where to go." ] ].
Proof.
  apply (proj1 (visitMethod_calls (Imports0 := sampleImports) sampleMethod
                  0%nat sampleParser)); reflexivity.
Defined.

Lemma visit_plain_kinds_witness :
  visit (H := sampleImports) (leaf "settings" (Some "Variable")) (Some 0%nat)
    sampleParser
  = Normal sampleParser.
Proof.
  apply (proj1 (visit_plain_kinds (Imports0 := sampleImports)
                  (leaf "settings" (Some "Variable")) (Some 0%nat) sampleParser)
           "Variable" eq_refl).
  apply elem_of_cons. left. reflexivity.
Defined.

Lemma parse_documents_witness :
  exists d1 d2,
    documentForName
      (state (parse (Imports0 := sampleImports) (String.concat ", ") sampleIndex
                sampleTree sampleNewParser)) "By" = Some d1
    /\ documentForName
         (state (parse (Imports0 := sampleImports) (String.concat ", ")
                   sampleIndex sampleTree sampleNewParser)) "Browser" = Some d2
    /\ (d1 ∉ dom (objects sampleNewParser))
    /\ (d1 = d2 <-> "By" = "Browser").
Proof.
  apply (parse_documents (Imports0 := sampleImports) (String.concat ", ")
           sampleIndex sampleTree sampleNewParser "By" "By" "Browser" "Browser");
    reflexivity.
Defined.

End ParserEdges.
